(** * Target-assigner utilities: a shallow embedding and its properties

    The module [research/object_detection/utils/target_assigner_utils.py]
    turns sparse ground truth (points, boxes, keypoints) into dense tensors.
    Every function is a straight-line composition of TensorFlow operators, so
    the embedding has two layers:

    - [TF]: the tensor operators the module calls, over tensors carrying an
      explicit shape, with broadcasting, axis handling and shape errors;
    - [target_assigner_utils]: the five functions, one binding per source
      statement.

    Scalars are [float32] values.  The embedding keeps the IEEE special values
    (NaN and the two infinities), because the code depends on them (NaN marks an
    absent keypoint, the maximum of an empty axis is -inf), and idealises
    rounding: finite values are real numbers and finite arithmetic is exact. *)

From Stdlib Require Import Reals Lra Lia List ZArith Bool Arith.
Import ListNotations.

Set Implicit Arguments.

(** ** Error monad: a TensorFlow call either fails (shape error) or returns *)

Definition bind {A B : Type} (m : option A) (k : A -> option B) : option B :=
  match m with
  | Some a => k a
  | None => None
  end.

Notation "x <- m ;; k" := (bind m (fun x => k))
  (at level 61, m at next level, right associativity).
Notation "' ( x , y ) <- m ;; k" := (bind m (fun '(x, y) => k))
  (at level 61, x name, y name, m at next level, right associativity).

(** ** Scalars *)

Inductive float32 : Type :=
| NaN
| NegInf
| PosInf
| Fin (r : R).

Module F32.

Local Open Scope R_scope.

Definition Rleb (a b : R) : bool := if Rle_dec a b then true else false.
Definition Rltb (a b : R) : bool := if Rlt_dec a b then true else false.
Definition Reqb (a b : R) : bool := if Req_dec_T a b then true else false.

Definition zero : float32 := Fin 0.
Definition one : float32 := Fin 1.

Definition is_nan (x : float32) : bool :=
  match x with NaN => true | _ => false end.

Definition neg (x : float32) : float32 :=
  match x with
  | NaN => NaN
  | NegInf => PosInf
  | PosInf => NegInf
  | Fin r => Fin (- r)
  end.

(** Finite sums and differences are exact; float32 rounds them to the
    nearest value it holds, so a difference such as [y - floor y] is exact
    in float32 only where no rounding occurs (for [y >= 0] it is). *)
Definition add (x y : float32) : float32 :=
  match x, y with
  | NaN, _ | _, NaN => NaN
  | PosInf, NegInf | NegInf, PosInf => NaN
  | PosInf, _ | _, PosInf => PosInf
  | NegInf, _ | _, NegInf => NegInf
  | Fin a, Fin b => Fin (a + b)
  end.

Definition sub (x y : float32) : float32 := add x (neg y).

(** An infinity times a finite value: the sign rule, and NaN at zero. *)
Definition signed_inf (positive : bool) (r : R) : float32 :=
  if Reqb r 0 then NaN
  else if Bool.eqb positive (Rltb 0 r) then PosInf else NegInf.

Definition mul (x y : float32) : float32 :=
  match x, y with
  | NaN, _ | _, NaN => NaN
  | PosInf, PosInf | NegInf, NegInf => PosInf
  | PosInf, NegInf | NegInf, PosInf => NegInf
  | PosInf, Fin r | Fin r, PosInf => signed_inf true r
  | NegInf, Fin r | Fin r, NegInf => signed_inf false r
  | Fin a, Fin b => Fin (a * b)
  end.

(** Division.  The model has one zero; as a divisor it is the positive zero,
    which is what [2 * sigma * sigma] is whenever it is zero. *)
Definition div (x y : float32) : float32 :=
  match x, y with
  | NaN, _ | _, NaN => NaN
  | PosInf, Fin r => if Rltb r 0 then NegInf else PosInf
  | NegInf, Fin r => if Rltb r 0 then PosInf else NegInf
  | (PosInf | NegInf), (PosInf | NegInf) => NaN
  | Fin _, (PosInf | NegInf) => Fin 0
  | Fin a, Fin b => if Reqb b 0 then signed_inf true a else Fin (a / b)
  end.

(** [x ** n] for a literal exponent. *)
Fixpoint pow (x : float32) (n : nat) : float32 :=
  match n with
  | O => one
  | S n' => mul x (pow x n')
  end.

(** The exponential of a finite value is the real one, which is never 0;
    in float32 it underflows to 0 for a very negative argument. *)
Definition exp (x : float32) : float32 :=
  match x with
  | NaN => NaN
  | NegInf => Fin 0
  | PosInf => PosInf
  | Fin r => Fin (Rtrigo_def.exp r)
  end.

Definition floor (x : float32) : float32 :=
  match x with
  | Fin r => Fin (IZR (Zfloor r))
  | s => s
  end.

(** Ordered comparisons are false as soon as one side is NaN. *)
Definition leb (x y : float32) : bool :=
  match x, y with
  | NaN, _ | _, NaN => false
  | NegInf, _ | _, PosInf => true
  | _, NegInf | PosInf, _ => false
  | Fin a, Fin b => Rleb a b
  end.

Definition geb (x y : float32) : bool := leb y x.

(** Maximum: NaN if either side is NaN. *)
Definition maximum (x y : float32) : float32 :=
  match x, y with
  | NaN, _ | _, NaN => NaN
  | _, _ => if leb x y then y else x
  end.

(** The maximum of a list of values; of no value at all it is -inf. *)
Definition max_list (l : list float32) : float32 :=
  fold_right maximum NegInf l.

Definition of_nat (n : nat) : float32 := Fin (INR n).
Definition of_bool (b : bool) : float32 := if b then one else zero.

Definition int32_min : Z := (- 2 ^ 31)%Z.
Definition int32_max : Z := (2 ^ 31 - 1)%Z.

(** Conversion to a 32-bit integer truncates toward zero.  Out of range (and
    for NaN) the conversion instruction returns the most negative integer. *)
Definition to_int32 (x : float32) : Z :=
  match x with
  | Fin r =>
      let z := if Rltb r 0 then Zceil r else Zfloor r in
      if ((int32_min <=? z) && (z <=? int32_max))%Z then z else int32_min
  | _ => int32_min
  end.

End F32.

(** ** Tensors

    A tensor is a shape and a value at every index; an index is the list of
    the positions along the axes, outermost first.  Only the values at indices
    inside the shape are meaningful. *)

Record tensor (A : Type) : Type := mkTensor {
  shape : list nat;
  at_ : list nat -> A
}.

Notation "t .[ idx ]" := (at_ t idx) (at level 1, format "t .[ idx ]").

Module TF.

Section ListHelpers.
Context {A : Type}.

Definition insert_at (n : nat) (x : A) (l : list A) : list A :=
    firstn n l ++ x :: skipn n l.

Definition remove_at (n : nat) (l : list A) : list A :=
    firstn n l ++ skipn (S n) l.

Definition replace_at (n : nat) (x : A) (l : list A) : list A :=
    firstn n l ++ x :: skipn (S n) l.
End ListHelpers.

Definition prod (s : list nat) : nat := fold_right Nat.mul 1 s.

(** An axis argument may count from the end when negative. *)
Definition norm_axis (rank : nat) (axis : Z) : option nat :=
  let a := if (axis <? 0)%Z then (axis + Z.of_nat rank)%Z else axis in
  if ((0 <=? a) && (a <? Z.of_nat rank))%Z then Some (Z.to_nat a) else None.

(** *** Construction *)

(** A Python number used as an operand: a tensor of rank 0. *)
Definition scalar {A} (v : A) : tensor A := mkTensor [] (fun _ => v).

Definition of_list {A} (d : A) (l : list A) : tensor A :=
  mkTensor [length l] (fun idx => nth (hd 0 idx) l d).

Definition of_rows {A} (d : A) (ncols : nat) (l : list (list A)) : tensor A :=
  mkTensor [length l; ncols]
           (fun idx => nth (nth 1 idx 0) (nth (nth 0 idx 0) l []) d).

Definition of_blocks {A} (d : A) (nrows ncols : nat)
    (l : list (list (list A))) : tensor A :=
  mkTensor [length l; nrows; ncols]
           (fun idx =>
              nth (nth 2 idx 0)
                  (nth (nth 1 idx 0) (nth (nth 0 idx 0) l []) []) d).

Definition tmap {A B} (f : A -> B) (t : tensor A) : tensor B :=
  mkTensor (shape t) (fun idx => f t.[idx]).

(** [tf.cast] of a Python integer to float32.  The value is kept as it is:
    float32 holds every integer up to 2^24 exactly and rounds larger ones,
    so sizes are meant to be at most 2^24. *)
Definition cast_int_to_float (n : nat) : float32 := F32.of_nat n.

(** [tf.range(limit, dtype=tf.float32)]: 0, 1, ... below [limit]. *)
Definition range (limit : float32) : option (tensor float32) :=
  match limit with
  | Fin r => Some (mkTensor [Z.to_nat (Zceil r)]
                            (fun idx => F32.of_nat (hd 0 idx)))
  | _ => None
  end.

(** [tf.meshgrid(x, y, indexing='xy')] of two vectors: both results have shape
    [len y; len x]; the first repeats [x] along the rows, the second repeats
    [y] along the columns. *)
Definition meshgrid_xy {A} (x y : tensor A) : option (tensor A * tensor A) :=
  match shape x, shape y with
  | [nx], [ny] =>
      Some (mkTensor [ny; nx] (fun idx => x.[[nth 1 idx 0]]),
            mkTensor [ny; nx] (fun idx => y.[[nth 0 idx 0]]))
  | _, _ => None
  end.

Definition zeros_like (t : tensor float32) : tensor float32 :=
  tmap (fun _ => F32.zero) t.

Definition ones_like (t : tensor float32) : tensor float32 :=
  tmap (fun _ => F32.one) t.

(** *** Broadcasting *)

Definition bdim (a b : nat) : option nat :=
  if a =? b then Some a
  else if a =? 1 then Some b
  else if b =? 1 then Some a
  else None.

Fixpoint bshape_aligned (s1 s2 : list nat) : option (list nat) :=
  match s1, s2 with
  | [], [] => Some []
  | a :: s1', b :: s2' =>
      d <- bdim a b ;; s <- bshape_aligned s1' s2' ;; Some (d :: s)
  | _, _ => None
  end.

Definition pad_shape (n : nat) (s : list nat) : list nat :=
  repeat 1 (n - length s) ++ s.

(** Shapes are aligned on their last axes; a missing or unit axis stretches. *)
Definition broadcast_shape (s1 s2 : list nat) : option (list nat) :=
  let n := Nat.max (length s1) (length s2) in
  bshape_aligned (pad_shape n s1) (pad_shape n s2).

(** The position read along an axis of extent [d]. *)
Definition bsel (d i : nat) : nat := if d =? 1 then 0 else i.

Fixpoint bindex_aligned (s idx : list nat) : list nat :=
  match s, idx with
  | d :: s', i :: idx' => bsel d i :: bindex_aligned s' idx'
  | _, _ => []
  end.

(** The index read in an operand of shape [s] for the result index [idx]. *)
Definition bindex (s idx : list nat) : list nat :=
  bindex_aligned s (skipn (length idx - length s) idx).

Definition broadcast2 {A B C} (op : A -> B -> C)
    (a : tensor A) (b : tensor B) : option (tensor C) :=
  s <- broadcast_shape (shape a) (shape b) ;;
  Some (mkTensor s (fun idx =>
          op a.[bindex (shape a) idx] b.[bindex (shape b) idx])).

Definition add := broadcast2 F32.add.
Definition sub := broadcast2 F32.sub.
Definition mul := broadcast2 F32.mul.
Definition div := broadcast2 F32.div.
Definition maximum := broadcast2 F32.maximum.
Definition greater_equal := broadcast2 F32.geb.
Definition less_equal := broadcast2 F32.leb.
Definition logical_and := broadcast2 andb.

Definition negative := tmap F32.neg.
Definition exp := tmap F32.exp.
Definition floor := tmap F32.floor.
Definition is_nan := tmap F32.is_nan.
Definition logical_not := tmap negb.
Definition cast_bool_to_float := tmap F32.of_bool.
Definition cast_float_to_int32 := tmap F32.to_int32.

(** [t ** n] for a literal [n]. *)
Definition pow (t : tensor float32) (n : nat) : tensor float32 :=
  tmap (fun x => F32.pow x n) t.

(** [tf.where(cond, x, y)]. *)
Definition where_ {A} (cond : tensor bool) (x y : tensor A)
    : option (tensor A) :=
  xy <- broadcast2 pair x y ;;
  broadcast2 (fun (c : bool) (p : A * A) => if c then fst p else snd p) cond xy.

(** *** Shape manipulation *)

Definition expand_dims {A} (t : tensor A) (axis : Z) : option (tensor A) :=
  ax <- norm_axis (S (length (shape t))) axis ;;
  Some (mkTensor (insert_at ax 1 (shape t))
                 (fun idx => t.[remove_at ax idx])).

(** Row-major position of an index, and back. *)
Definition ravel (s idx : list nat) : nat :=
  fold_left (fun acc di => acc * fst di + snd di) (combine s idx) 0.

Fixpoint unravel (s : list nat) (k : nat) : list nat :=
  match s with
  | [] => []
  | _ :: s' => k / prod s' :: unravel s' (k mod prod s')
  end.

Definition reshape {A} (t : tensor A) (s : list nat) : option (tensor A) :=
  if prod (shape t) =? prod s
  then Some (mkTensor s (fun idx => t.[unravel (shape t) (ravel s idx)]))
  else None.

(** [tf.tile]: one multiple per axis. *)
Definition tile {A} (t : tensor A) (multiples : list nat)
    : option (tensor A) :=
  if length multiples =? length (shape t)
  then Some (mkTensor
               (map (fun dm => fst dm * snd dm) (combine (shape t) multiples))
               (fun idx =>
                  t.[map (fun id => snd id mod fst id)
                         (combine (shape t) idx)]))
  else None.

(** [t[..., j, ...]]: position [j] along [axis], which disappears. *)
Definition index_axis {A} (t : tensor A) (axis j : nat) : option (tensor A) :=
  if (axis <? length (shape t)) && (j <? nth axis (shape t) 0)
  then Some (mkTensor (remove_at axis (shape t))
                      (fun idx => t.[insert_at axis j idx]))
  else None.

(** [t[..., start:stop, ...]] along [axis]; a missing [stop] is the end, and
    bounds beyond the extent are clipped as Python slices are. *)
Definition slice_axis {A} (t : tensor A) (axis start : nat)
    (stop : option nat) : option (tensor A) :=
  if axis <? length (shape t)
  then
    let d := nth axis (shape t) 0 in
    let hi := match stop with Some e => Nat.min e d | None => d end in
    let lo := Nat.min start hi in
    Some (mkTensor (replace_at axis (hi - lo) (shape t))
                   (fun idx =>
                      t.[replace_at axis (lo + nth axis idx 0) idx]))
  else None.

(** [tf.gather(t, indices, axis)] with a list of positions.  The list is
    meant to be non-empty: TensorFlow reads an empty Python list as a float
    tensor and rejects it as indices. *)
Definition gather {A} (t : tensor A) (indices : list nat) (axis : Z)
    : option (tensor A) :=
  ax <- norm_axis (length (shape t)) axis ;;
  if forallb (fun j => j <? nth ax (shape t) 0) indices
  then Some (mkTensor (replace_at ax (length indices) (shape t))
                      (fun idx =>
                         t.[replace_at ax (nth (nth ax idx 0) indices 0) idx]))
  else None.

(** [tf.stack([a, b], axis)] of two tensors of one shape. *)
Definition stack2 {A} (a b : tensor A) (axis : Z) : option (tensor A) :=
  ax <- norm_axis (S (length (shape a))) axis ;;
  if list_eq_dec Nat.eq_dec (shape a) (shape b)
  then Some (mkTensor (insert_at ax 2 (shape a))
                      (fun idx =>
                         if nth ax idx 0 =? 0 then a.[remove_at ax idx]
                         else b.[remove_at ax idx]))
  else None.

(** [tf.reduce_max(t, axis)]. *)
Definition reduce_max (t : tensor float32) (axis : Z)
    : option (tensor float32) :=
  ax <- norm_axis (length (shape t)) axis ;;
  Some (mkTensor (remove_at ax (shape t))
                 (fun idx =>
                    F32.max_list
                      (map (fun k => t.[insert_at ax k idx])
                           (seq 0 (nth ax (shape t) 0))))).

(** [tf.shape(t)[k]]. *)
Definition shape_at {A} (t : tensor A) (k : nat) : option nat :=
  nth_error (shape t) k.

End TF.

(** ** The functions of [target_assigner_utils.py] *)

Module target_assigner_utils.

(** Modelled from the spec: [shape_utils.combined_static_and_dynamic_shape]
    lives in another file of the repository; it returns the list of the
    extents of its argument, which [coordinates_to_heatmap] unpacks into
    [num_instances, num_channels] (the unpacking fails unless the rank is 2). *)
Definition combined_static_and_dynamic_shape {A} (t : tensor A) : list nat :=
  shape t.

Definition unpack2 (s : list nat) : option (nat * nat) :=
  match s with
  | [a; b] => Some (a, b)
  | _ => None
  end.

Definition image_shape_to_grids (height width : nat)
    : option (tensor float32 * tensor float32) :=
  let out_height := TF.cast_int_to_float height in
  let out_width := TF.cast_int_to_float width in
  x_range <- TF.range out_width ;;
  y_range <- TF.range out_height ;;
  '(x_grid, y_grid) <- TF.meshgrid_xy x_range y_range ;;
  Some (y_grid, x_grid).

(** The statements of [coordinates_to_heatmap] from the two [expand_dims] to
    the assignment of [gaussian_map]. *)
Definition gaussian_map (y_grid x_grid y_coordinates x_coordinates sigma
    : tensor float32) : option (tensor float32) :=
  x_grid <- TF.expand_dims x_grid 2 ;;
  y_grid <- TF.expand_dims y_grid 2 ;;
  x_diff <- TF.sub x_grid (TF.floor x_coordinates) ;;
  y_diff <- TF.sub y_grid (TF.floor y_coordinates) ;;
  squared_distance <- TF.add (TF.pow x_diff 2) (TF.pow y_diff 2) ;;
  two_sigma <- TF.mul (TF.scalar (Fin 2)) sigma ;;
  two_sigma_sigma <- TF.mul two_sigma sigma ;;
  quotient <- TF.div (TF.negative squared_distance) two_sigma_sigma ;;
  Some (TF.exp quotient).

Definition coordinates_to_heatmap
    (y_grid x_grid y_coordinates x_coordinates sigma channel_onehot
     : tensor float32)
    (channel_weights : option (tensor float32)) : option (tensor float32) :=
  '(num_instances, num_channels) <-
    unpack2 (combined_static_and_dynamic_shape channel_onehot) ;;
  gaussian_map <-
    gaussian_map y_grid x_grid y_coordinates x_coordinates sigma ;;
  reshaped_gaussian_map <- TF.expand_dims gaussian_map (-1) ;;
  reshaped_channel_onehot <-
    TF.reshape channel_onehot [1; 1; num_instances; num_channels] ;;
  gaussian_per_box_per_class_map <-
    TF.mul reshaped_gaussian_map reshaped_channel_onehot ;;
  gaussian_per_box_per_class_map <-
    match channel_weights with
    | Some channel_weights =>
        reshaped_weights <-
          TF.reshape channel_weights [1; 1; num_instances; 1] ;;
        TF.mul gaussian_per_box_per_class_map reshaped_weights
    | None => Some gaussian_per_box_per_class_map
    end ;;
  heatmap <- TF.reduce_max gaussian_per_box_per_class_map 2 ;;
  heatmap <- TF.maximum heatmap (TF.scalar (Fin 0)) ;;
  Some heatmap.

Definition compute_floor_offsets_with_indices
    (y_source x_source : tensor float32)
    (y_target x_target : option (tensor float32))
    : option (tensor float32 * tensor Z) :=
  let y_source_floored := TF.floor y_source in
  let x_source_floored := TF.floor x_source in
  let y_target :=
    match y_target with None => y_source | Some t => t end in
  let x_target :=
    match x_target with None => x_source | Some t => t end in
  y_offset <- TF.sub y_target y_source_floored ;;
  x_offset <- TF.sub x_target x_source_floored ;;
  let y_source_indices := TF.cast_float_to_int32 y_source_floored in
  let x_source_indices := TF.cast_float_to_int32 x_source_floored in
  indices <- TF.stack2 y_source_indices x_source_indices 1 ;;
  offsets <- TF.stack2 y_offset x_offset 1 ;;
  Some (offsets, indices).

Definition get_valid_keypoint_mask_for_class
    (keypoint_coordinates : tensor float32) (class_id : nat)
    (class_onehot : tensor float32)
    (class_weights : option (tensor float32))
    (keypoint_indices : option (list nat))
    : option (tensor float32 * tensor float32) :=
  num_keypoints <- TF.shape_at keypoint_coordinates 1 ;;
  class_mask <- TF.index_axis class_onehot 1 class_id ;;
  expanded_class_mask <- TF.expand_dims class_mask (-1) ;;
  reshaped_class_mask <- TF.tile expanded_class_mask [1; num_keypoints] ;;
  let not_nan := TF.logical_not (TF.is_nan keypoint_coordinates) in
  not_nan_0 <- TF.index_axis not_nan 2 0 ;;
  mask <- TF.mul reshaped_class_mask (TF.cast_bool_to_float not_nan_0) ;;
  keypoints_nan_to_zeros <-
    TF.where_ not_nan keypoint_coordinates
              (TF.zeros_like keypoint_coordinates) ;;
  mask <-
    match class_weights with
    | Some class_weights =>
        expanded_class_weights <- TF.expand_dims class_weights (-1) ;;
        reshaped_class_weight <-
          TF.tile expanded_class_weights [1; num_keypoints] ;;
        TF.mul mask reshaped_class_weight
    | None => Some mask
    end ;;
  match keypoint_indices with
  | Some keypoint_indices =>
      mask <- TF.gather mask keypoint_indices 1 ;;
      keypoints_nan_to_zeros <-
        TF.gather keypoints_nan_to_zeros keypoint_indices 1 ;;
      Some (mask, keypoints_nan_to_zeros)
  | None => Some (mask, keypoints_nan_to_zeros)
  end.

Definition blackout_pixel_weights_by_box_regions
    (height width : nat) (boxes : tensor float32) (blackout : tensor bool)
    : option (tensor float32) :=
  '(y_grid, x_grid) <- image_shape_to_grids height width ;;
  y_grid <- TF.expand_dims y_grid 0 ;;
  x_grid <- TF.expand_dims x_grid 0 ;;
  boxes_0 <- TF.slice_axis boxes 1 0 (Some 1) ;;
  y_min <- TF.expand_dims boxes_0 (-1) ;;
  boxes_1 <- TF.slice_axis boxes 1 1 (Some 2) ;;
  x_min <- TF.expand_dims boxes_1 (-1) ;;
  boxes_2 <- TF.slice_axis boxes 1 2 (Some 3) ;;
  y_max <- TF.expand_dims boxes_2 (-1) ;;
  boxes_3 <- TF.slice_axis boxes 1 3 None ;;
  x_max <- TF.expand_dims boxes_3 (-1) ;;
  y_ge <- TF.greater_equal y_grid y_min ;;
  y_le <- TF.less_equal y_grid y_max ;;
  y_in <- TF.logical_and y_ge y_le ;;
  x_ge <- TF.greater_equal x_grid x_min ;;
  x_le <- TF.less_equal x_grid x_max ;;
  x_in <- TF.logical_and x_ge x_le ;;
  yx_in <- TF.logical_and y_in x_in ;;
  let in_boxes := TF.cast_bool_to_float yx_in in
  blackout_1 <- TF.expand_dims blackout (-1) ;;
  blackout_2 <- TF.expand_dims blackout_1 (-1) ;;
  blackout <- TF.tile blackout_2 [1; height; width] ;;
  selected_in_boxes <-
    TF.where_ blackout in_boxes (TF.zeros_like in_boxes) ;;
  out_boxes <- TF.reduce_max selected_in_boxes 0 ;;
  out_boxes <- TF.sub (TF.ones_like out_boxes) out_boxes ;;
  Some out_boxes.

End target_assigner_utils.

(** ** Vocabulary of the statements *)

Module Spec.

(** The test of [blackout_pixel_weights_by_box_regions] for box [i]. *)
Definition in_box (boxes : tensor float32) (i r c : nat) : bool :=
  (F32.geb (F32.of_nat r) boxes.[[i; 0]] &&
   F32.leb (F32.of_nat r) boxes.[[i; 2]]) &&
  (F32.geb (F32.of_nat c) boxes.[[i; 1]] &&
   F32.leb (F32.of_nat c) boxes.[[i; 3]]).

(** The number of keypoint columns of the outputs of
    [get_valid_keypoint_mask_for_class]. *)
Definition columns (K : nat) (keypoint_indices : option (list nat)) : nat :=
  match keypoint_indices with
  | Some l => length l
  | None => K
  end.

(** The column of the input that cell [k] of the outputs of
    [get_valid_keypoint_mask_for_class] is taken from. *)
Definition column (keypoint_indices : option (list nat)) (k : nat) : nat :=
  match keypoint_indices with
  | Some l => nth k l 0
  | None => k
  end.

Local Open Scope R_scope.

(** The value one instance contributes at a pixel of a channel, before the
    merge over the instances. *)
Definition contribution (g channel_onehot : tensor float32)
    (channel_weights : option (tensor float32)) (r c ch i : nat) : float32 :=
  let v := F32.mul g.[[r; c; i]] channel_onehot.[[i; ch]] in
  match channel_weights with
  | Some w => F32.mul v w.[[i]]
  | None => v
  end.

(** The Gaussian of the squared distance between a grid point [(gy, gx)] and
    the floored centre of an instance at [(y, x)]. *)
Definition gaussian (gy gx y x sigma : R) : R :=
  Rtrigo_def.exp
    (- ((gx - IZR (Zfloor x)) * (gx - IZR (Zfloor x)) +
        (gy - IZR (Zfloor y)) * (gy - IZR (Zfloor y)))
     / (2 * sigma * sigma)).

(** The largest of [v 0], ..., [v (n - 1)], and 0 when there is none. *)
Definition Rmax_upto (n : nat) (v : nat -> R) : R :=
  fold_right Rmax 0 (map v (seq 0 n)).

(** A tensor of finite values: its shape, and the real number in each cell. *)
Definition real_vector (t : tensor float32) (n : nat) (v : nat -> R) : Prop :=
  shape t = [n] /\ forall i, (i < n)%nat -> t.[[i]] = Fin (v i).

Definition real_matrix (t : tensor float32) (n m : nat) (v : nat -> nat -> R)
    : Prop :=
  shape t = [n; m] /\
  forall i j, (i < n)%nat -> (j < m)%nat -> t.[[i; j]] = Fin (v i j).

(** Optional per-instance weights; every weight is 1 when they are omitted. *)
Definition real_weights (t : option (tensor float32)) (n : nat) (w : nat -> R)
    : Prop :=
  match t with
  | Some t => real_vector t n w
  | None => forall i, (i < n)%nat -> w i = 1
  end.

(** An optional target; it is the source when omitted. *)
Definition real_target (t : option (tensor float32)) (n : nat)
    (source target : nat -> R) : Prop :=
  match t with
  | Some t => real_vector t n target
  | None => forall j, (j < n)%nat -> target j = source j
  end.

(** Pixel [(r, c)] lies in the box, bounds included. *)
Definition inside (y_min x_min y_max x_max : R) (r c : nat) : Prop :=
  (y_min <= INR r <= y_max) /\ (x_min <= INR c <= x_max).

(** Box [i], with the finite bounds [b i 0 .. b i 3], is selected and
    contains pixel [(r, c)]. *)
Definition blacks_out (blackout : tensor bool) (b : nat -> nat -> R)
    (i r c : nat) : Prop :=
  blackout.[[i]] = true
  /\ inside (b i 0%nat) (b i 1%nat) (b i 2%nat) (b i 3%nat) r c.

End Spec.

(** ** Concrete inputs used by the examples *)

Module Examples.

Local Open Scope R_scope.

(** A 1 x 2 grid, two instances of one class centred on its two pixels. *)
Definition y_grid_1x2 := TF.of_rows NaN 2 [[Fin 0; Fin 0]].
Definition x_grid_1x2 := TF.of_rows NaN 2 [[Fin 0; Fin 1]].
Definition y_two := TF.of_list NaN [Fin 0; Fin 0].
Definition x_two := TF.of_list NaN [Fin 0; Fin 1].
Definition sigma_two := TF.of_list NaN [Fin 1; Fin 1].
Definition onehot_two := TF.of_rows NaN 1 [[Fin 1]; [Fin 1]].

Definition gy_1x2 (r c : nat) : R := 0.
Definition gx_1x2 (r c : nat) : R := nth c [0; 1] 0.
Definition y_two_val (i : nat) : R := 0.
Definition x_two_val (i : nat) : R := nth i [0; 1] 0.
Definition ones (i : nat) : R := 1.
Definition ones2 (i j : nat) : R := 1.

(** One instance at (1.5, 2.25), sigma 2. *)
Definition y_one := TF.of_list NaN [Fin (3 / 2)].
Definition x_one := TF.of_list NaN [Fin (9 / 4)].
Definition sigma_one := TF.of_list NaN [Fin 2].
Definition onehot_one := TF.of_rows NaN 1 [[Fin 1]].

(** The source point (3.7, 2.2). *)
Definition y_source := TF.of_list NaN [Fin (37 / 10)].
Definition x_source := TF.of_list NaN [Fin (22 / 10)].

(** One instance with one keypoint, and a soft class membership of 1/2. *)
Definition keypoint_plain := TF.of_blocks NaN 1 2 [[[Fin 0; Fin 0]]].
Definition keypoint_nan := TF.of_blocks NaN 1 2 [[[NaN; NaN]]].
Definition keypoint_nan_x := TF.of_blocks NaN 1 2 [[[Fin 5; NaN]]].
Definition class_half := TF.of_rows NaN 1 [[Fin (1 / 2)]].
Definition class_one := TF.of_rows NaN 1 [[Fin 1]].
Definition half2 (i j : nat) : R := 1 / 2.

(** No box at all. *)
Definition no_boxes : tensor float32 := TF.of_rows NaN 4 [].
Definition no_blackout : tensor bool := TF.of_list false [].

(** The degenerate box at pixel (1, 2). *)
Definition point_box := TF.of_rows NaN 4 [[Fin 1; Fin 2; Fin 1; Fin 2]].
Definition point_box_val (i j : nat) : R := nth j [1; 2; 1; 2] 0.
Definition selected_one : tensor bool := TF.of_list false [true].

(** The box (0, 0, 1, 1), for a 3 x 3 grid. *)
Definition corner_box := TF.of_rows NaN 4 [[Fin 0; Fin 0; Fin 1; Fin 1]].
Definition corner_box_val (i j : nat) : R := nth j [0; 0; 1; 1] 0.
Definition selected_none : tensor bool := TF.of_list false [false].

(** A vector holding one NaN, and vectors of three points. *)
Definition nan_one := TF.of_list NaN [NaN].
Definition y_three := TF.of_list NaN [Fin (37 / 10); Fin 0; Fin (5 / 2)].
Definition x_three := TF.of_list NaN [Fin (22 / 10); Fin 3; Fin (1 / 2)].
Definition y_three_val (j : nat) : R := nth j [37 / 10; 0; 5 / 2] 0.
Definition x_three_val (j : nat) : R := nth j [22 / 10; 3; 1 / 2] 0.

(** One instance of the first of two classes; a weight 3; a zero sigma;
    a one-hot matrix of three rows. *)
Definition onehot_first := TF.of_rows NaN 2 [[Fin 1; Fin 0]].
Definition onehot_first_val (i ch : nat) : R := nth ch [1; 0] 0.
Definition weight_three := TF.of_list NaN [Fin 3].
Definition sigma_zero := TF.of_list NaN [Fin 0].
Definition onehot_three := TF.of_rows NaN 1 [[Fin 1]; [Fin 1]; [Fin 1]].

(** One instance with three keypoints, the second of which is absent. *)
Definition keypoints_three :=
  TF.of_blocks NaN 3 2 [[[Fin 1; Fin 2]; [NaN; NaN]; [Fin 5; Fin 6]]].

(** A box with a NaN bound, and a box thinner than a pixel. *)
Definition nan_box := TF.of_rows NaN 4 [[Fin 0; NaN; Fin 1; Fin 1]].
Definition thin_box :=
  TF.of_rows NaN 4 [[Fin (2 / 10); Fin 0; Fin (8 / 10); Fin 2]].
Definition thin_box_val (i j : nat) : R := nth j [2 / 10; 0; 8 / 10; 2] 0.


End Examples.

(** * Properties *)

Import target_assigner_utils.

(** ** Evaluation of the tensor operators

    Each operator is rewritten into its result once its shape conditions are
    discharged; the result is kept as a shape and a closure over the index,
    and the closure is only evaluated at an index inside the shape. *)

Lemma bdim_same a : TF.bdim a a = Some a.
Proof. unfold TF.bdim. now rewrite Nat.eqb_refl. Qed.

Lemma bdim_1_l a : TF.bdim 1 a = Some a.
Proof.
  unfold TF.bdim. destruct (1 =? a) eqn:E; [|reflexivity].
  apply Nat.eqb_eq in E. now subst.
Qed.

Lemma bdim_1_r a : TF.bdim a 1 = Some a.
Proof. unfold TF.bdim. destruct (a =? 1) eqn:E; reflexivity. Qed.

Lemma bsel_lt d i : i < d -> TF.bsel d i = i.
Proof.
  unfold TF.bsel. destruct (d =? 1) eqn:E; [|reflexivity].
  apply Nat.eqb_eq in E. lia.
Qed.

Lemma bsel_1 i : TF.bsel 1 i = 0.
Proof. reflexivity. Qed.

Section OperatorResults.
Context {A B C : Type}.

Lemma expand_dims_some (t : tensor A) axis ax s :
    shape t = s ->
    TF.norm_axis (S (length s)) axis = Some ax ->
    TF.expand_dims t axis =
    Some (mkTensor (TF.insert_at ax 1 s) (fun idx => t.[TF.remove_at ax idx])).
  Proof. intros <- E. unfold TF.expand_dims. now rewrite E. Qed.

Lemma broadcast2_some (op : A -> B -> C) a b s1 s2 s :
    shape a = s1 -> shape b = s2 ->
    TF.broadcast_shape s1 s2 = Some s ->
    TF.broadcast2 op a b =
    Some (mkTensor s (fun idx => op a.[TF.bindex s1 idx] b.[TF.bindex s2 idx])).
  Proof. intros <- <- E. unfold TF.broadcast2. now rewrite E. Qed.

Lemma reshape_some (t : tensor A) s0 s :
    shape t = s0 ->
    TF.prod s0 = TF.prod s ->
    TF.reshape t s =
    Some (mkTensor s (fun idx => t.[TF.unravel s0 (TF.ravel s idx)])).
  Proof.
    intros <- E. unfold TF.reshape. rewrite E, Nat.eqb_refl. reflexivity.
  Qed.

Lemma tile_some (t : tensor A) multiples s0 :
    shape t = s0 ->
    length multiples = length s0 ->
    TF.tile t multiples =
    Some (mkTensor
            (map (fun dm => fst dm * snd dm) (combine s0 multiples))
            (fun idx =>
               t.[map (fun id => snd id mod fst id) (combine s0 idx)])).
  Proof. intros <- E. unfold TF.tile. rewrite E, Nat.eqb_refl. reflexivity. Qed.

Lemma index_axis_some (t : tensor A) axis j s0 :
    shape t = s0 ->
    axis < length s0 -> j < nth axis s0 0 ->
    TF.index_axis t axis j =
    Some (mkTensor (TF.remove_at axis s0)
                   (fun idx => t.[TF.insert_at axis j idx])).
  Proof.
    intros <- H1 H2. unfold TF.index_axis.
    apply Nat.ltb_lt in H1, H2. now rewrite H1, H2.
  Qed.

Lemma slice_axis_some (t : tensor A) axis start stop s0 d :
    shape t = s0 ->
    axis < length s0 ->
    nth axis s0 0 = d ->
    TF.slice_axis t axis start stop =
    Some (mkTensor
            (TF.replace_at axis
               (match stop with Some e => Nat.min e d | None => d end -
                Nat.min start
                  match stop with Some e => Nat.min e d | None => d end) s0)
            (fun idx =>
               t.[TF.replace_at axis
                    (Nat.min start
                       match stop with Some e => Nat.min e d | None => d end +
                     nth axis idx 0) idx])).
  Proof.
    intros <- H1 <-. unfold TF.slice_axis.
    apply Nat.ltb_lt in H1. now rewrite H1.
  Qed.

Lemma gather_some (t : tensor A) indices axis ax s0 :
    shape t = s0 ->
    TF.norm_axis (length s0) axis = Some ax ->
    Forall (fun j => j < nth ax s0 0) indices ->
    TF.gather t indices axis =
    Some (mkTensor
            (TF.replace_at ax (length indices) s0)
            (fun idx =>
               t.[TF.replace_at ax (nth (nth ax idx 0) indices 0) idx])).
  Proof.
    intros <- E F. unfold TF.gather. rewrite E. cbn [bind].
    replace (forallb _ indices) with true; [reflexivity|].
    symmetry. apply forallb_forall. intros j Hj. apply Nat.ltb_lt.
    rewrite Forall_forall in F. now apply F.
  Qed.

Lemma stack2_some (a b : tensor A) axis ax s0 :
    shape a = s0 -> shape b = s0 ->
    TF.norm_axis (S (length s0)) axis = Some ax ->
    TF.stack2 a b axis =
    Some (mkTensor
            (TF.insert_at ax 2 s0)
            (fun idx =>
               if nth ax idx 0 =? 0 then a.[TF.remove_at ax idx]
               else b.[TF.remove_at ax idx])).
  Proof.
    intros Sa Sb E. unfold TF.stack2. rewrite Sa, E. cbn [bind].
    destruct (list_eq_dec Nat.eq_dec s0 (shape b)); [reflexivity|].
    now rewrite Sb in *.
  Qed.
End OperatorResults.

Lemma where_some A (c : tensor bool) (x y : tensor A) sc sx sy s1 s :
  shape c = sc -> shape x = sx -> shape y = sy ->
  TF.broadcast_shape sx sy = Some s1 ->
  TF.broadcast_shape sc s1 = Some s ->
  TF.where_ c x y =
  Some (mkTensor s (fun idx =>
          if c.[TF.bindex sc idx]
          then x.[TF.bindex sx (TF.bindex s1 idx)]
          else y.[TF.bindex sy (TF.bindex s1 idx)])).
Proof.
  intros Sc Sx Sy E1 E2. unfold TF.where_.
  rewrite (broadcast2_some _ _ _ Sx Sy E1). cbn [bind].
  unfold TF.broadcast2. cbn [shape]. rewrite Sc, E2. reflexivity.
Qed.

Lemma reduce_max_some (t : tensor float32) axis ax s0 d :
  shape t = s0 ->
  TF.norm_axis (length s0) axis = Some ax ->
  nth ax s0 0 = d ->
  TF.reduce_max t axis =
  Some (mkTensor
          (TF.remove_at ax s0)
          (fun idx =>
             F32.max_list
               (map (fun k => t.[TF.insert_at ax k idx]) (seq 0 d)))).
Proof. intros <- E <-. unfold TF.reduce_max. now rewrite E. Qed.

(** Evaluation of shapes: everything that acts on the extents, except the
    tests on symbolic extents, which are rewritten. *)
Ltac tf_shape_cbv :=
  cbv [shape length TF.tmap TF.scalar TF.floor TF.exp TF.negative TF.pow
       TF.is_nan TF.logical_not TF.cast_bool_to_float TF.cast_float_to_int32
       TF.zeros_like TF.ones_like TF.of_list TF.of_rows TF.of_blocks
       TF.insert_at TF.remove_at TF.replace_at firstn skipn app nth
       TF.broadcast_shape TF.pad_shape repeat TF.bshape_aligned
       Nat.max Nat.min Nat.sub Nat.add
       map combine fst snd TF.prod fold_right nth_error TF.shape_at].

Ltac tf_shape :=
  tf_shape_cbv; rewrite ?Nat.mul_1_l, ?Nat.mul_1_r; reflexivity.

Ltac tf_axis :=
  tf_shape_cbv;
  match goal with
  | |- TF.norm_axis ?r ?a = Some _ =>
      let v := eval vm_compute in (TF.norm_axis r a) in
      change (TF.norm_axis r a) with v; reflexivity
  end.

Ltac tf_bshape :=
  tf_shape_cbv;
  rewrite ?bdim_same, ?bdim_1_l, ?bdim_1_r;
  cbn [bind]; reflexivity.

Ltac tf_arith := tf_shape_cbv; first [reflexivity | lia | nia].

Ltac tf_side :=
  match goal with
  | |- TF.norm_axis _ _ = _ => tf_axis
  | |- TF.broadcast_shape _ _ = _ => tf_bshape
  | |- shape _ = _ => tf_shape
  | |- nth _ _ _ = _ => tf_shape
  | |- _ => tf_arith
  end.

Ltac tf_step :=
  first
    [ progress cbn [bind]
    | erewrite expand_dims_some by tf_side
    | erewrite broadcast2_some by tf_side
    | erewrite where_some by tf_side
    | erewrite reshape_some by tf_side
    | erewrite tile_some by tf_side
    | erewrite index_axis_some by tf_side
    | erewrite slice_axis_some by tf_side
    | erewrite reduce_max_some by tf_side
    | erewrite stack2_some by tf_side
    | erewrite gather_some by first [assumption | tf_side] ].

Ltac tf_run :=
  unfold TF.add, TF.sub, TF.mul, TF.div, TF.maximum, TF.greater_equal,
    TF.less_equal, TF.logical_and;
  repeat tf_step.

(** Evaluation of a result closure at an index of known length. *)
Ltac tf_at :=
  cbn [at_ shape length TF.tmap TF.scalar TF.floor TF.exp TF.negative TF.pow
       TF.is_nan TF.logical_not TF.cast_bool_to_float TF.cast_float_to_int32
       TF.zeros_like TF.ones_like
       TF.insert_at TF.remove_at TF.replace_at firstn skipn app nth hd
       TF.bindex TF.bindex_aligned TF.ravel TF.unravel TF.prod
       fold_left fold_right Nat.sub Nat.add Nat.min Nat.max Nat.eqb
       map combine fst snd].

Lemma div_row_major i c j : j < c -> (i * c + j) / c = i.
Proof.
  intros Hj. rewrite Nat.div_add_l by lia.
  rewrite Nat.div_small by lia. lia.
Qed.

Lemma mod_row_major i c j : j < c -> (i * c + j) mod c = j.
Proof.
  intros Hj. rewrite Nat.add_comm, Nat.Div0.mod_add.
  now apply Nat.mod_small.
Qed.

Ltac tf_idx :=
  repeat first
    [ rewrite bsel_1
    | rewrite Nat.mul_1_r
    | rewrite Nat.mul_1_l
    | rewrite Nat.mul_0_l
    | rewrite Nat.add_0_r
    | rewrite Nat.add_0_l
    | rewrite Nat.div_1_r
    | match goal with
      | |- context [TF.bsel ?d ?i] => rewrite (@bsel_lt d i) by lia
      | |- context [(?i * ?c + ?j) / ?c] =>
          rewrite (@div_row_major i c j) by lia
      | |- context [(?i * ?c + ?j) mod ?c] =>
          rewrite (@mod_row_major i c j) by lia
      | |- context [?i mod ?d] => rewrite (@Nat.mod_small i d) by lia
      end ].

(** ** Pointwise form of the five functions *)

Lemma Zceil_INR n : Zceil (INR n) = Z.of_nat n.
Proof. rewrite INR_IZR_INZ. apply Zceil_eq. lra. Qed.

Lemma range_of_nat n :
  TF.range (TF.cast_int_to_float n) =
  Some (mkTensor [n] (fun idx => F32.of_nat (hd 0 idx))).
Proof.
  unfold TF.range, TF.cast_int_to_float, F32.of_nat.
  rewrite Zceil_INR, Nat2Z.id. reflexivity.
Qed.

Lemma image_shape_to_grids_eval H W :
  image_shape_to_grids H W =
  Some (mkTensor [H; W] (fun idx => F32.of_nat (nth 0 idx 0)),
        mkTensor [H; W] (fun idx => F32.of_nat (nth 1 idx 0))).
Proof.
  unfold image_shape_to_grids. rewrite !range_of_nat. reflexivity.
Qed.

Lemma gaussian_map_pointwise H W N
    (y_grid x_grid y_coordinates x_coordinates sigma : tensor float32) :
  shape y_grid = [H; W] -> shape x_grid = [H; W] ->
  shape y_coordinates = [N] -> shape x_coordinates = [N] ->
  shape sigma = [N] ->
  exists g,
    gaussian_map y_grid x_grid y_coordinates x_coordinates sigma = Some g
    /\ shape g = [H; W; N]
    /\ forall r c i, r < H -> c < W -> i < N ->
       g.[[r; c; i]] =
       F32.exp
         (F32.div
            (F32.neg
               (F32.add
                  (F32.pow (F32.sub x_grid.[[r; c]]
                                    (F32.floor x_coordinates.[[i]])) 2)
                  (F32.pow (F32.sub y_grid.[[r; c]]
                                    (F32.floor y_coordinates.[[i]])) 2)))
            (F32.mul (F32.mul (Fin 2) sigma.[[i]]) sigma.[[i]])).
Proof.
  destruct y_grid as [s1 yg], x_grid as [s2 xg], y_coordinates as [s3 y],
    x_coordinates as [s4 x], sigma as [s5 sg].
  cbn [shape]. intros -> -> -> -> ->.
  unfold gaussian_map. tf_run.
  eexists; split; [reflexivity|]. split; [reflexivity|].
  intros r c i Hr Hc Hi. tf_at. tf_idx. reflexivity.
Qed.

Lemma coordinates_to_heatmap_pointwise H W N C
    (y_grid x_grid y_coordinates x_coordinates sigma channel_onehot
     : tensor float32) (channel_weights : option (tensor float32)) :
  shape y_grid = [H; W] -> shape x_grid = [H; W] ->
  shape y_coordinates = [N] -> shape x_coordinates = [N] ->
  shape sigma = [N] -> shape channel_onehot = [N; C] ->
  (forall w, channel_weights = Some w -> shape w = [N]) ->
  exists g heatmap,
    gaussian_map y_grid x_grid y_coordinates x_coordinates sigma = Some g
    /\ coordinates_to_heatmap y_grid x_grid y_coordinates x_coordinates sigma
         channel_onehot channel_weights = Some heatmap
    /\ shape heatmap = [H; W; C]
    /\ forall r c ch, r < H -> c < W -> ch < C ->
       heatmap.[[r; c; ch]] =
       F32.maximum
         (F32.max_list
            (map (Spec.contribution g channel_onehot channel_weights r c ch)
                 (seq 0 N)))
         (Fin 0).
Proof.
  intros S1 S2 S3 S4 S5 S6 S7.
  destruct (@gaussian_map_pointwise H W N y_grid x_grid y_coordinates
              x_coordinates sigma S1 S2 S3 S4 S5) as (g & Eg & Sg & _).
  exists g. unfold coordinates_to_heatmap. rewrite Eg.
  unfold combined_static_and_dynamic_shape. rewrite S6. cbn [unpack2 bind].
  destruct g as [sg g], channel_onehot as [so oh]. cbn [shape] in *.
  subst sg so.
  destruct channel_weights as [[sw w]|].
  - specialize (S7 _ eq_refl). cbn [shape] in S7. subst sw.
    tf_run.
    eexists; split; [reflexivity|]. split; [reflexivity|].
    split; [reflexivity|].
    intros r c ch Hr Hc Hch. tf_at. tf_idx.
    f_equal. f_equal. apply map_ext_in. intros i Hi. apply in_seq in Hi.
    unfold Spec.contribution. tf_at. tf_idx. reflexivity.
  - tf_run.
    eexists; split; [reflexivity|]. split; [reflexivity|].
    split; [reflexivity|].
    intros r c ch Hr Hc Hch. tf_at. tf_idx.
    f_equal. f_equal. apply map_ext_in. intros i Hi. apply in_seq in Hi.
    unfold Spec.contribution. tf_at. tf_idx. reflexivity.
Qed.

Lemma compute_floor_offsets_with_indices_pointwise M
    (y_source x_source : tensor float32)
    (y_target x_target : option (tensor float32)) :
  shape y_source = [M] -> shape x_source = [M] ->
  (forall t, y_target = Some t -> shape t = [M]) ->
  (forall t, x_target = Some t -> shape t = [M]) ->
  exists offsets indices,
    compute_floor_offsets_with_indices y_source x_source y_target x_target =
    Some (offsets, indices)
    /\ shape offsets = [M; 2] /\ shape indices = [M; 2]
    /\ forall j, j < M ->
       let yt := match y_target with None => y_source | Some t => t end in
       let xt := match x_target with None => x_source | Some t => t end in
       offsets.[[j; 0]] = F32.sub yt.[[j]] (F32.floor y_source.[[j]])
       /\ offsets.[[j; 1]] = F32.sub xt.[[j]] (F32.floor x_source.[[j]])
       /\ indices.[[j; 0]] = F32.to_int32 (F32.floor y_source.[[j]])
       /\ indices.[[j; 1]] = F32.to_int32 (F32.floor x_source.[[j]]).
Proof.
  intros S1 S2 S3 S4. unfold compute_floor_offsets_with_indices.
  set (yt := match y_target with None => y_source | Some t => t end).
  set (xt := match x_target with None => x_source | Some t => t end).
  assert (Sy : shape yt = [M]) by (subst yt; destruct y_target; auto).
  assert (Sx : shape xt = [M]) by (subst xt; destruct x_target; auto).
  clearbody yt xt. clear S3 S4.
  destruct y_source as [s1 ys], x_source as [s2 xs], yt as [s3 yt],
    xt as [s4 xt]. cbn [shape] in *. subst.
  tf_run.
  do 2 eexists; split; [reflexivity|]. split; [reflexivity|].
  split; [reflexivity|].
  intros j Hj. tf_at. tf_idx. repeat split.
Qed.

Lemma get_valid_keypoint_mask_for_class_pointwise N K NC
    (keypoint_coordinates : tensor float32) (class_id : nat)
    (class_onehot : tensor float32)
    (class_weights : option (tensor float32))
    (keypoint_indices : option (list nat)) :
  shape keypoint_coordinates = [N; K; 2] ->
  shape class_onehot = [N; NC] -> class_id < NC ->
  (forall w, class_weights = Some w -> shape w = [N]) ->
  (forall l, keypoint_indices = Some l -> Forall (fun j => j < K) l) ->
  exists mask keypoints,
    get_valid_keypoint_mask_for_class keypoint_coordinates class_id
      class_onehot class_weights keypoint_indices = Some (mask, keypoints)
    /\ forall K', K' = Spec.columns K keypoint_indices ->
       shape mask = [N; K'] /\ shape keypoints = [N; K'; 2]
       /\ forall i k, i < N -> k < K' ->
          let col := Spec.column keypoint_indices k in
          let v := F32.mul class_onehot.[[i; class_id]]
                     (F32.of_bool
                        (negb (F32.is_nan keypoint_coordinates.[[i; col; 0]])))
          in
          mask.[[i; k]] =
            match class_weights with
            | Some w => F32.mul v w.[[i]]
            | None => v
            end
          /\ forall d, d < 2 ->
             keypoints.[[i; k; d]] =
             if negb (F32.is_nan keypoint_coordinates.[[i; col; d]])
             then keypoint_coordinates.[[i; col; d]]
             else F32.zero.
Proof.
  intros S1 S2 Hc S3 S4. unfold get_valid_keypoint_mask_for_class.
  destruct keypoint_coordinates as [s1 kp], class_onehot as [s2 oh].
  cbn [shape] in *. subst s1 s2.
  unfold TF.shape_at. cbn [shape nth_error bind].
  destruct class_weights as [[sw w]|]; destruct keypoint_indices as [l|].
  all: try (specialize (S3 _ eq_refl); cbn [shape] in S3; subst sw).
  all: try specialize (S4 _ eq_refl).
  all: tf_run.
  all: do 2 eexists; split; [reflexivity|].
  all: intros K' ->; split; [reflexivity|]; split; [reflexivity|].
  all: intros i k Hi Hk; cbn [Spec.column Spec.columns] in *.
  all: try (assert (Hcol : nth k l 0 < K)
             by (rewrite Forall_forall in S4; apply S4, nth_In; lia)).
  all: split; [|intros d Hd]; tf_at; tf_idx; reflexivity.
Qed.

Lemma blackout_pixel_weights_by_box_regions_pointwise H W N
    (boxes : tensor float32) (blackout : tensor bool) :
  shape boxes = [N; 4] -> shape blackout = [N] ->
  exists out,
    blackout_pixel_weights_by_box_regions H W boxes blackout = Some out
    /\ shape out = [H; W]
    /\ forall r c, r < H -> c < W ->
       out.[[r; c]] =
       F32.sub F32.one
         (F32.max_list
            (map (fun i => if blackout.[[i]]
                           then F32.of_bool (Spec.in_box boxes i r c)
                           else F32.zero)
                 (seq 0 N))).
Proof.
  destruct boxes as [s1 bx], blackout as [s2 bl]. cbn [shape].
  intros -> ->. unfold blackout_pixel_weights_by_box_regions.
  rewrite image_shape_to_grids_eval. cbn [bind].
  tf_run.
  eexists; split; [reflexivity|]. split; [tf_shape|].
  intros r c Hr Hc. tf_at. tf_idx.
  f_equal. f_equal. apply map_ext_in. intros i Hi. apply in_seq in Hi.
  tf_idx. reflexivity.
Qed.

(** ** Facts on scalars *)

Section ScalarFacts.
Local Open Scope R_scope.

Lemma Rleb_true a b : F32.Rleb a b = true <-> a <= b.
  Proof.
    unfold F32.Rleb. destruct (Rle_dec a b); split; intros; try easy.
  Qed.

Lemma Reqb_true a : F32.Reqb a a = true.
Proof. unfold F32.Reqb. now destruct (Req_dec_T a a). Qed.

Lemma Reqb_false a b : a <> b -> F32.Reqb a b = false.
  Proof. intros Hab. unfold F32.Reqb. now destruct (Req_dec_T a b). Qed.

Lemma maximum_fin a b : F32.maximum (Fin a) (Fin b) = Fin (Rmax a b).
  Proof.
    unfold F32.maximum, F32.leb, F32.Rleb, Rmax.
    destruct (Rle_dec a b); reflexivity.
  Qed.

Lemma pow2_fin a : F32.pow (Fin a) 2 = Fin (a * a).
  Proof. cbn [F32.pow F32.mul F32.one]. f_equal. ring. Qed.

Lemma div_fin a b : b <> 0 -> F32.div (Fin a) (Fin b) = Fin (a / b).
  Proof. intros Hb. cbn [F32.div]. now rewrite Reqb_false. Qed.

Lemma leb_fin a b : F32.leb (Fin a) (Fin b) = true <-> a <= b.
  Proof. apply Rleb_true. Qed.

Lemma geb_fin a b : F32.geb (Fin a) (Fin b) = true <-> b <= a.
  Proof. apply Rleb_true. Qed.

Lemma to_int32_of_Z z :
    (F32.int32_min <= z <= F32.int32_max)%Z -> F32.to_int32 (Fin (IZR z)) = z.
  Proof.
    intros Hz. cbn [F32.to_int32].
    replace (if F32.Rltb (IZR z) 0 then Zceil (IZR z) else Zfloor (IZR z))
      with z.
    - destruct (Z.leb_spec F32.int32_min z); [|lia].
      destruct (Z.leb_spec z F32.int32_max); [reflexivity|lia].
    - destruct (F32.Rltb (IZR z) 0).
      + symmetry. apply Zceil_eq. lra.
      + symmetry. apply ZfloorZ.
  Qed.

  (** The maximum of finite values: -inf of none, else a finite value that
      is their largest. *)
Lemma max_list_fin (f : nat -> float32) (v : nat -> R) l :
    (forall i, In i l -> f i = Fin (v i)) ->
    (l = [] /\ F32.max_list (map f l) = NegInf) \/
    (l <> [] /\ exists m, F32.max_list (map f l) = Fin m /\
                 forall b, Rmax m b = fold_right Rmax b (map v l)).
  Proof.
    induction l as [|a l IH]; intros Hf.
    - left. split; reflexivity.
    - right. split; [discriminate|].
      cbn [map F32.max_list fold_right].
      rewrite (Hf a (or_introl eq_refl)).
      destruct IH as [[-> E]|[_ (m & E & Hm)]].
      + intros i Hi. apply Hf. now right.
      + exists (v a). split; [reflexivity|]. intros b. reflexivity.
      + fold (F32.max_list (map f l)). rewrite E, maximum_fin.
        exists (Rmax (v a) m). split; [reflexivity|].
        intros b. rewrite <- Hm. symmetry. apply Rmax_assoc.
  Qed.

Lemma max_list_clamped (f : nat -> float32) (v : nat -> R) l :
    (forall i, In i l -> f i = Fin (v i)) ->
    F32.maximum (F32.max_list (map f l)) (Fin 0) =
    Fin (fold_right Rmax 0 (map v l)).
  Proof.
    intros Hf. destruct (max_list_fin f v l Hf) as [[-> E]|[_ (m & E & Hm)]].
    - reflexivity.
    - rewrite E, maximum_fin. now rewrite Hm.
  Qed.

Lemma fold_Rmax_lower b (v : nat -> R) l :
    b <= fold_right Rmax b (map v l).
  Proof.
    induction l as [|a l IH]; cbn [map fold_right]; [lra|].
    eapply Rle_trans; [apply IH|apply Rmax_r].
  Qed.

Lemma fold_Rmax_upper b (v : nat -> R) l i :
    In i l -> v i <= fold_right Rmax b (map v l).
  Proof.
    induction l as [|a l IH]; cbn [map fold_right]; [easy|].
    intros [->|Hi]; [apply Rmax_l|].
    eapply Rle_trans; [apply IH, Hi|apply Rmax_r].
  Qed.

Lemma fold_Rmax_attained b (v : nat -> R) l :
    fold_right Rmax b (map v l) = b \/
    exists i, In i l /\ fold_right Rmax b (map v l) = v i.
  Proof.
    induction l as [|a l IH]; cbn [map fold_right]; [now left|].
    destruct (Rmax_case (v a) (fold_right Rmax b (map v l))
                (fun x => x = v a \/ x = fold_right Rmax b (map v l)))
      as [E|E]; [now left|now right| |].
    - right. exists a. split; [now left|exact E].
    - rewrite E. destruct IH as [IH|(i & Hi & IH)]; [now left|].
      right. exists i. split; [now right|exact IH].
  Qed.

Lemma fold_Rmax_le b c (v : nat -> R) l :
    b <= c -> (forall i, In i l -> v i <= c) ->
    fold_right Rmax b (map v l) <= c.
  Proof.
    intros Hb Hv. destruct (fold_Rmax_attained b v l) as [->|(i & Hi & ->)];
      auto.
  Qed.
End ScalarFacts.

(** ** The Gaussian kernel *)

Section Gaussian.
Local Open Scope R_scope.

Lemma two_sq_pos s : s <> 0 -> 0 < 2 * s * s.
  Proof.
    intros Hs. apply Rsqr_pos_lt in Hs. unfold Rsqr in Hs. lra.
  Qed.

Lemma gaussian_pos gy gx y x s : 0 < Spec.gaussian gy gx y x s.
  Proof. apply exp_pos. Qed.


Lemma gaussian_centre gy gx y x s :
    gy = IZR (Zfloor y) -> gx = IZR (Zfloor x) ->
    Spec.gaussian gy gx y x s = 1.
  Proof.
    intros -> ->. unfold Spec.gaussian. rewrite <- exp_0. f_equal.
    unfold Rdiv. ring.
  Qed.

  (** The response computed on finite operands. *)
Lemma response_fin gy gx y x s :
    s <> 0 ->
    F32.exp
      (F32.div
         (F32.neg
            (F32.add
               (F32.pow (F32.sub (Fin gx) (F32.floor (Fin x))) 2)
               (F32.pow (F32.sub (Fin gy) (F32.floor (Fin y))) 2)))
         (F32.mul (F32.mul (Fin 2) (Fin s)) (Fin s))) =
    Fin (Spec.gaussian gy gx y x s).
  Proof.
    intros Hs. cbn [F32.floor F32.sub F32.neg F32.add].
    rewrite !pow2_fin. cbn [F32.add F32.neg F32.mul].
    rewrite div_fin by (apply Rgt_not_eq, two_sq_pos, Hs).
    cbn [F32.exp]. unfold Spec.gaussian.
    reflexivity.
  Qed.
End Gaussian.

Section HeatmapOnFiniteInputs.
Local Open Scope R_scope.

Variables (H W N C : nat).
Variables (y_grid x_grid y_coordinates x_coordinates sigma channel_onehot
             : tensor float32).
Variable channel_weights : option (tensor float32).
Variables (gy gx : nat -> nat -> R) (y x s : nat -> R).
Variables (oh : nat -> nat -> R) (w : nat -> R).

Hypothesis Hyg : Spec.real_matrix y_grid H W gy.
Hypothesis Hxg : Spec.real_matrix x_grid H W gx.
Hypothesis Hy : Spec.real_vector y_coordinates N y.
Hypothesis Hx : Spec.real_vector x_coordinates N x.
Hypothesis Hs : Spec.real_vector sigma N s.
Hypothesis Hs0 : forall i, (i < N)%nat -> s i <> 0.

Lemma gaussian_map_real :
    exists g,
      gaussian_map y_grid x_grid y_coordinates x_coordinates sigma = Some g
      /\ shape g = [H; W; N]
      /\ forall r c i, (r < H)%nat -> (c < W)%nat -> (i < N)%nat ->
         g.[[r; c; i]] =
         Fin (Spec.gaussian (gy r c) (gx r c) (y i) (x i) (s i)).
  Proof.
    destruct Hyg as [S1 V1], Hxg as [S2 V2], Hy as [S3 V3], Hx as [S4 V4],
      Hs as [S5 V5].
    destruct (@gaussian_map_pointwise H W N _ _ _ _ _ S1 S2 S3 S4 S5)
      as (g & Eg & Sg & Vg).
    exists g. split; [exact Eg|]. split; [exact Sg|].
    intros r c i Hr Hc Hi.
    rewrite Vg, V1, V2, V3, V4, V5 by assumption.
    apply response_fin. now apply Hs0.
  Qed.

Hypothesis Hoh : Spec.real_matrix channel_onehot N C oh.
Hypothesis Hw : Spec.real_weights channel_weights N w.

Lemma heatmap_real :
    exists heatmap,
      coordinates_to_heatmap y_grid x_grid y_coordinates x_coordinates sigma
        channel_onehot channel_weights = Some heatmap
      /\ shape heatmap = [H; W; C]
      /\ forall r c ch, (r < H)%nat -> (c < W)%nat -> (ch < C)%nat ->
         heatmap.[[r; c; ch]] =
         Fin (Spec.Rmax_upto N (fun i =>
                Spec.gaussian (gy r c) (gx r c) (y i) (x i) (s i)
                * oh i ch * w i)).
  Proof.
    destruct gaussian_map_real as (g & Eg & Sg & Vg).
    destruct Hoh as [S6 V6].
    assert (S7 : forall t, channel_weights = Some t -> shape t = [N]).
    { intros t ->. apply Hw. }
    destruct (@coordinates_to_heatmap_pointwise H W N C _ _ _ _ _ _
                channel_weights (proj1 Hyg) (proj1 Hxg) (proj1 Hy) (proj1 Hx)
                (proj1 Hs) S6 S7) as (g' & hm & Eg' & Ehm & Shm & Vhm).
    rewrite Eg in Eg'. injection Eg' as <-.
    exists hm. split; [exact Ehm|]. split; [exact Shm|].
    intros r c ch Hr Hc Hch. rewrite Vhm by assumption.
    apply max_list_clamped. intros i Hi. apply in_seq in Hi.
    unfold Spec.contribution.
    rewrite Vg, V6 by (assumption || lia).
    destruct channel_weights as [t|]; cbn [Spec.real_weights] in Hw.
    - destruct Hw as [_ Vw]. rewrite Vw by lia. reflexivity.
    - rewrite Hw by lia. cbn [F32.mul]. f_equal. ring.
  Qed.
End HeatmapOnFiniteInputs.

(** ** Reading concrete tensors *)

Ltac cell_cases :=
  repeat match goal with
         | H : (?i < _)%nat |- _ =>
             is_var i; do 4 (try destruct i as [|i]); try lia; clear H
         end;
  try reflexivity.

Ltac real_tensor :=
  split; [reflexivity | intros; cell_cases].

(** ** The grid generator *)

(** C8: for [height] and [width] up to 2^24, the sizes that float32 holds
    exactly, [image_shape_to_grids] returns two tensors of shape
    [height; width] with [x_grid[r][c] = c] and [y_grid[r][c] = r], the
    values being integers held as reals; when a dimension is 0 the call
    still succeeds and the tensors have no element. *)
Theorem image_shape_to_grids_spec (height width : nat) :
  (Z.of_nat height <= 2 ^ 24)%Z -> (Z.of_nat width <= 2 ^ 24)%Z ->
  exists y_grid x_grid,
    image_shape_to_grids height width = Some (y_grid, x_grid)
    /\ shape y_grid = [height; width]
    /\ shape x_grid = [height; width]
    /\ (forall r c, r < height -> c < width ->
        x_grid.[[r; c]] = Fin (IZR (Z.of_nat c))
        /\ y_grid.[[r; c]] = Fin (IZR (Z.of_nat r)))
    /\ (height = 0 \/ width = 0 ->
        TF.prod (shape y_grid) = 0 /\ TF.prod (shape x_grid) = 0).
Proof.
  intros _ _. rewrite image_shape_to_grids_eval. do 2 eexists.
  split; [reflexivity|]. split; [reflexivity|]. split; [reflexivity|].
  split.
  - intros r c _ _. cbn [at_ nth]. unfold F32.of_nat.
    now rewrite !INR_IZR_INZ.
  - intros [-> | ->]; cbn [shape TF.prod fold_right]; lia.
Qed.

Lemma image_shape_to_grids_spec_witness :
  exists y_grid x_grid,
    image_shape_to_grids 2 3 = Some (y_grid, x_grid)
    /\ x_grid.[[1; 2]] = Fin 2 /\ y_grid.[[1; 2]] = Fin 1.
Proof.
  destruct (@image_shape_to_grids_spec 2 3 ltac:(lia) ltac:(lia))
    as (y_grid & x_grid & E & _ & _ & V & _).
  exists y_grid, x_grid. split; [exact E|].
  apply (V 1 2); lia.
Defined.

(** ** The heatmap renderer *)

(** C1: on finite inputs with non-negative one-hot entries and weights, the
    heatmap at a pixel of a channel is the maximum over the instances of
    their weighted Gaussian contributions: it bounds every contribution and
    is one of them; for two instances it is the larger of the two values,
    which is less than their sum as soon as both are positive. *)
Theorem heatmap_merges_by_maximum H W N C
    (y_grid x_grid y_coordinates x_coordinates sigma channel_onehot
     : tensor float32) (channel_weights : option (tensor float32))
    (gy gx : nat -> nat -> R) (y x s : nat -> R)
    (oh : nat -> nat -> R) (w : nat -> R) :
  Spec.real_matrix y_grid H W gy -> Spec.real_matrix x_grid H W gx ->
  Spec.real_vector y_coordinates N y -> Spec.real_vector x_coordinates N x ->
  Spec.real_vector sigma N s -> (forall i, i < N -> s i <> 0%R) ->
  Spec.real_matrix channel_onehot N C oh ->
  Spec.real_weights channel_weights N w ->
  (forall i ch, i < N -> ch < C -> (0 <= oh i ch)%R) ->
  (forall i, i < N -> (0 <= w i)%R) ->
  exists heatmap,
    coordinates_to_heatmap y_grid x_grid y_coordinates x_coordinates sigma
      channel_onehot channel_weights = Some heatmap
    /\ forall r c ch, r < H -> c < W -> ch < C ->
       let v := fun i =>
         (Spec.gaussian (gy r c) (gx r c) (y i) (x i) (s i)
          * oh i ch * w i)%R in
       exists m,
         heatmap.[[r; c; ch]] = Fin m
         /\ (forall i, i < N -> (v i <= m)%R)
         /\ (0 < N -> exists i, i < N /\ m = v i)
         /\ (N = 2 ->
             m = Rmax (v 0) (v 1)
             /\ ((0 < v 0%nat)%R -> (0 < v 1%nat)%R ->
                 (m < v 0%nat + v 1%nat)%R)).
Proof.
  intros Hyg Hxg Hy Hx Hs Hs0 Hoh Hw Hoh0 Hw0.
  destruct (heatmap_real channel_weights w Hyg Hxg Hy Hx Hs Hs0 Hoh Hw)
    as (hm & E & _ & V).
  exists hm. split; [exact E|].
  intros r c ch Hr Hc Hch v.
  assert (Hv : forall i, i < N -> (0 <= v i)%R).
  { intros i Hi. unfold v.
    pose proof (gaussian_pos (gy r c) (gx r c) (y i) (x i) (s i)).
    apply Rmult_le_pos; [apply Rmult_le_pos|]; auto. lra. }
  exists (Spec.Rmax_upto N v). split; [now apply V|].
  unfold Spec.Rmax_upto. split; [|split].
  - intros i Hi. apply fold_Rmax_upper, in_seq. lia.
  - intros HN.
    destruct (fold_Rmax_attained 0%R v (seq 0 N)) as [E0|(i & Hi & Ei)].
    + exists 0. split; [exact HN|]. rewrite E0.
      assert (v 0%nat <= 0)%R.
      { rewrite <- E0. apply fold_Rmax_upper, in_seq. lia. }
      specialize (Hv 0 HN). lra.
    + exists i. apply in_seq in Hi. split; [lia|exact Ei].
  - intros ->. cbn [seq map fold_right].
    pose proof (Hv 0 ltac:(lia)) as H0. pose proof (Hv 1 ltac:(lia)) as H1.
    rewrite (Rmax_left (v 1) 0%R) by exact H1.
    split; [reflexivity|]. intros P0 P1.
    unfold Rmax. destruct (Rle_dec (v 0) (v 1)); lra.
Qed.

Lemma heatmap_merges_by_maximum_witness :
  exists heatmap m,
    coordinates_to_heatmap Examples.y_grid_1x2 Examples.x_grid_1x2
      Examples.y_two Examples.x_two Examples.sigma_two Examples.onehot_two
      None = Some heatmap
    /\ heatmap.[[0; 0; 0]] = Fin m
    /\ (m < Spec.gaussian 0 0 0 0 1 * 1 * 1
            + Spec.gaussian 0 0 0 1 1 * 1 * 1)%R.
Proof.
  destruct (@heatmap_merges_by_maximum 1 2 2 1
              Examples.y_grid_1x2 Examples.x_grid_1x2
              Examples.y_two Examples.x_two Examples.sigma_two
              Examples.onehot_two None
              Examples.gy_1x2 Examples.gx_1x2
              Examples.y_two_val Examples.x_two_val
              Examples.ones Examples.ones2 Examples.ones)
    as (hm & E & V).
  - real_tensor.
  - real_tensor.
  - real_tensor.
  - real_tensor.
  - real_tensor.
  - intros i _. unfold Examples.ones. lra.
  - real_tensor.
  - intros i _. reflexivity.
  - intros i ch _ _. unfold Examples.ones2. lra.
  - intros i _. unfold Examples.ones. lra.
  - destruct (V 0 0 0 ltac:(lia) ltac:(lia) ltac:(lia))
      as (m & Em & _ & _ & H2).
    exists hm, m. split; [exact E|]. split; [exact Em|].
    destruct (H2 eq_refl) as [_ Hlt].
    apply Hlt; unfold Examples.ones, Examples.ones2;
      rewrite !Rmult_1_r; apply gaussian_pos.
Defined.




(** C2: on the grids of [image_shape_to_grids] and for finite centres and a
    non-zero (in particular positive) sigma, the response of instance [i] at
    pixel [(r, c)] is
    [exp (- ((r - floor y_i)^2 + (c - floor x_i)^2) / (2 * sigma_i^2))]:
    the centre enters through its floor only.  At the pixel that is the
    floored centre the response is exactly 1, and so is the heatmap of a
    single instance with one-hot [[1]] and no weights. *)
Theorem gaussian_response_uses_floored_centre H W N
    (y_grid x_grid y_coordinates x_coordinates sigma : tensor float32)
    (y x s : nat -> R) :
  image_shape_to_grids H W = Some (y_grid, x_grid) ->
  Spec.real_vector y_coordinates N y -> Spec.real_vector x_coordinates N x ->
  Spec.real_vector sigma N s -> (forall i, i < N -> s i <> 0%R) ->
  exists g,
    gaussian_map y_grid x_grid y_coordinates x_coordinates sigma = Some g
    /\ (forall r c i, r < H -> c < W -> i < N ->
        g.[[r; c; i]] =
        Fin (Rtrigo_def.exp
               (- ((INR r - IZR (Zfloor (y i))) ^ 2
                   + (INR c - IZR (Zfloor (x i))) ^ 2)
                / (2 * s i ^ 2))%R)
        /\ (Zfloor (y i) = Z.of_nat r -> Zfloor (x i) = Z.of_nat c ->
            g.[[r; c; i]] = Fin 1))
    /\ (N = 1 ->
        forall channel_onehot,
          Spec.real_matrix channel_onehot 1 1 (fun _ _ => 1%R) ->
          exists heatmap,
            coordinates_to_heatmap y_grid x_grid y_coordinates x_coordinates
              sigma channel_onehot None = Some heatmap
            /\ forall r c, r < H -> c < W ->
               Zfloor (y 0) = Z.of_nat r -> Zfloor (x 0) = Z.of_nat c ->
               heatmap.[[r; c; 0]] = Fin 1).
Proof.
  intros Eg Hy Hx Hs Hs0.
  rewrite image_shape_to_grids_eval in Eg. injection Eg as <- <-.
  set (yg := mkTensor [H; W] (fun idx => F32.of_nat (nth 0 idx 0))).
  set (xg := mkTensor [H; W] (fun idx => F32.of_nat (nth 1 idx 0))).
  assert (Hyg : Spec.real_matrix yg H W (fun r _ => INR r))
    by (split; [reflexivity|intros; reflexivity]).
  assert (Hxg : Spec.real_matrix xg H W (fun _ c => INR c))
    by (split; [reflexivity|intros; reflexivity]).
  destruct (gaussian_map_real Hyg Hxg Hy Hx Hs Hs0) as (g & E & _ & V).
  exists g. split; [exact E|]. split.
  - intros r c i Hr Hc Hi. rewrite V by assumption. split.
    + unfold Spec.gaussian. do 2 f_equal.
      pose proof (two_sq_pos (Hs0 i Hi)). field. nra.
    + intros Fy Fx. f_equal.
      apply gaussian_centre; rewrite INR_IZR_INZ; congruence.
  - intros -> channel_onehot Hoh.
    destruct (@heatmap_real H W 1 1 _ _ _ _ _ _ None _ _ _ _ _ _
                (fun _ => 1%R) Hyg Hxg Hy Hx Hs Hs0 Hoh
                (fun _ _ => eq_refl)) as (hm & Ehm & _ & Vhm).
    exists hm. split; [exact Ehm|].
    intros r c Hr Hc Fy Fx. rewrite Vhm by (assumption || lia).
    unfold Spec.Rmax_upto. cbn [seq map fold_right].
    rewrite gaussian_centre by (rewrite INR_IZR_INZ; congruence).
    f_equal. rewrite !Rmult_1_r. apply Rmax_left. lra.
Qed.

Lemma gaussian_response_uses_floored_centre_witness :
  exists y_grid x_grid g heatmap,
    image_shape_to_grids 3 4 = Some (y_grid, x_grid)
    /\ gaussian_map y_grid x_grid Examples.y_one Examples.x_one
         Examples.sigma_one = Some g
    /\ g.[[1; 2; 0]] = Fin 1
    /\ coordinates_to_heatmap y_grid x_grid Examples.y_one Examples.x_one
         Examples.sigma_one Examples.onehot_one None = Some heatmap
    /\ heatmap.[[1; 2; 0]] = Fin 1.
Proof.
  pose proof (image_shape_to_grids_eval 3 4) as Egrid.
  destruct (@gaussian_response_uses_floored_centre 3 4 1 _ _
              Examples.y_one Examples.x_one Examples.sigma_one
              (fun _ => (3 / 2)%R) (fun _ => (9 / 4)%R) (fun _ => 2%R)
              Egrid)
    as (g & Eg & Vg & Vh).
  - real_tensor.
  - real_tensor.
  - real_tensor.
  - intros i _. lra.
  - assert (Fy : Zfloor (3 / 2) = Z.of_nat 1) by (apply Zfloor_eq; cbn; lra).
    assert (Fx : Zfloor (9 / 4) = Z.of_nat 2) by (apply Zfloor_eq; cbn; lra).
    destruct (Vh eq_refl Examples.onehot_one) as (hm & Ehm & Vhm);
      [real_tensor|].
    do 2 eexists. exists g, hm. split; [exact Egrid|]. split; [exact Eg|].
    split; [apply (Vg 1 2 0); (lia || assumption)|].
    split; [exact Ehm|]. apply (Vhm 1 2); (lia || assumption).
Defined.

(** ** The offset and index computer *)

(** C3: for finite sources (and targets, which default to the sources), the
    call succeeds and, for every point [j], [indices[j]] is the pair of the
    floored source coordinates cast to integers (the floors themselves when
    they fit in 32 bits) and [offsets[j]] is the pair
    [(y_target - floor y_source, x_target - floor x_source)]: the target is
    not floored, and both pairs are ordered (y, x). *)
Theorem floor_offsets_and_indices M
    (y_source x_source : tensor float32)
    (y_target x_target : option (tensor float32))
    (ys xs yt xt : nat -> R) :
  Spec.real_vector y_source M ys -> Spec.real_vector x_source M xs ->
  Spec.real_target y_target M ys yt -> Spec.real_target x_target M xs xt ->
  exists offsets indices,
    compute_floor_offsets_with_indices y_source x_source y_target x_target =
    Some (offsets, indices)
    /\ shape offsets = [M; 2] /\ shape indices = [M; 2]
    /\ forall j, j < M ->
       offsets.[[j; 0]] = Fin (yt j - IZR (Zfloor (ys j)))
       /\ offsets.[[j; 1]] = Fin (xt j - IZR (Zfloor (xs j)))
       /\ indices.[[j; 0]] = F32.to_int32 (Fin (IZR (Zfloor (ys j))))
       /\ indices.[[j; 1]] = F32.to_int32 (Fin (IZR (Zfloor (xs j))))
       /\ ((F32.int32_min <= Zfloor (ys j) <= F32.int32_max)%Z ->
           indices.[[j; 0]] = Zfloor (ys j))
       /\ ((F32.int32_min <= Zfloor (xs j) <= F32.int32_max)%Z ->
           indices.[[j; 1]] = Zfloor (xs j)).
Proof.
  intros [S1 V1] [S2 V2] Hyt Hxt.
  assert (S3 : forall t, y_target = Some t -> shape t = [M]).
  { intros t ->. apply Hyt. }
  assert (S4 : forall t, x_target = Some t -> shape t = [M]).
  { intros t ->. apply Hxt. }
  destruct (@compute_floor_offsets_with_indices_pointwise M _ _ _ _
              S1 S2 S3 S4) as (offsets & indices & E & So & Si & V).
  exists offsets, indices. split; [exact E|]. split; [exact So|].
  split; [exact Si|].
  intros j Hj. destruct (V j Hj) as (O0 & O1 & I0 & I1).
  rewrite V1 in O0, I0 by exact Hj. rewrite V2 in O1, I1 by exact Hj.
  assert (Ty : match y_target with None => y_source | Some t => t end.[[j]]
               = Fin (yt j)).
  { destruct y_target as [t|]; cbn [Spec.real_target] in Hyt.
    - now apply Hyt.
    - rewrite V1, Hyt by exact Hj. reflexivity. }
  assert (Tx : match x_target with None => x_source | Some t => t end.[[j]]
               = Fin (xt j)).
  { destruct x_target as [t|]; cbn [Spec.real_target] in Hxt.
    - now apply Hxt.
    - rewrite V2, Hxt by exact Hj. reflexivity. }
  rewrite Ty in O0. rewrite Tx in O1.
  cbn [F32.floor F32.sub F32.neg F32.add] in O0, O1, I0, I1.
  repeat split; try assumption.
  - intros Hr. rewrite I0. now apply to_int32_of_Z.
  - intros Hr. rewrite I1. now apply to_int32_of_Z.
Qed.

Lemma floor_offsets_and_indices_witness :
  exists offsets indices,
    compute_floor_offsets_with_indices Examples.y_source Examples.x_source
      None None = Some (offsets, indices)
    /\ indices.[[0; 0]] = 3%Z /\ indices.[[0; 1]] = 2%Z
    /\ offsets.[[0; 0]] = Fin (7 / 10) /\ offsets.[[0; 1]] = Fin (2 / 10).
Proof.
  destruct (@floor_offsets_and_indices 1 Examples.y_source Examples.x_source
              None None
              (fun _ => (37 / 10)%R) (fun _ => (22 / 10)%R)
              (fun _ => (37 / 10)%R) (fun _ => (22 / 10)%R))
    as (offsets & indices & E & _ & _ & V).
  - real_tensor.
  - real_tensor.
  - intros j _. reflexivity.
  - intros j _. reflexivity.
  - exists offsets, indices. split; [exact E|].
    destruct (V 0 ltac:(lia)) as (O0 & O1 & _ & _ & I0 & I1).
    assert (Fy : Zfloor (37 / 10) = 3%Z) by (apply Zfloor_eq; lra).
    assert (Fx : Zfloor (22 / 10) = 2%Z) by (apply Zfloor_eq; lra).
    rewrite Fy in *. rewrite Fx in *.
    split; [apply I0; unfold F32.int32_min, F32.int32_max; lia|].
    split; [apply I1; unfold F32.int32_min, F32.int32_max; lia|].
    rewrite O0, O1. split; f_equal; lra.
Defined.

(** ** The keypoint mask builder *)

Section KeypointMaskOnFiniteClasses.
Variables (N K NC : nat).
Variables (keypoint_coordinates class_onehot : tensor float32).
Variable class_id : nat.
Variable class_weights : option (tensor float32).
Variable keypoint_indices : option (list nat).
Variables (m : nat -> nat -> R) (w : nat -> R).

Hypothesis Hkp : shape keypoint_coordinates = [N; K; 2].
Hypothesis Hm : Spec.real_matrix class_onehot N NC m.
Hypothesis Hid : class_id < NC.
Hypothesis Hw : Spec.real_weights class_weights N w.
Hypothesis Hki :
  forall l, keypoint_indices = Some l -> Forall (fun j => j < K) l.

(** The mask is the class membership times the weight where the
    y-coordinate is a number, and 0 where it is NaN; the coordinates are
    copied, except the NaN ones, which become 0. *)
Lemma keypoint_mask_real :
  exists mask keypoints,
    get_valid_keypoint_mask_for_class keypoint_coordinates class_id
      class_onehot class_weights keypoint_indices = Some (mask, keypoints)
    /\ shape mask = [N; Spec.columns K keypoint_indices]
    /\ shape keypoints = [N; Spec.columns K keypoint_indices; 2]
    /\ forall i k, i < N -> k < Spec.columns K keypoint_indices ->
       let col := Spec.column keypoint_indices k in
       mask.[[i; k]] =
         Fin (if F32.is_nan keypoint_coordinates.[[i; col; 0]]
              then 0 else m i class_id * w i)
       /\ forall d, d < 2 ->
          keypoints.[[i; k; d]] =
          if F32.is_nan keypoint_coordinates.[[i; col; d]]
          then Fin 0 else keypoint_coordinates.[[i; col; d]].
Proof.
  destruct Hm as [S2 V2].
  assert (S3 : forall t, class_weights = Some t -> shape t = [N]).
  { intros t ->. apply Hw. }
  destruct (@get_valid_keypoint_mask_for_class_pointwise N K NC _ class_id _
              class_weights keypoint_indices Hkp S2 Hid S3 Hki)
    as (mask & kps & E & V).
  destruct (V _ eq_refl) as (Sm & Sk & Vc).
  exists mask, kps. split; [exact E|]. split; [exact Sm|]. split; [exact Sk|].
  intros i k Hi Hk col. destruct (Vc i k Hi Hk) as [Vm Vk]. fold col in Vm, Vk.
  split.
  - rewrite Vm, V2 by assumption.
    destruct class_weights as [t|]; cbn [Spec.real_weights] in Hw.
    + destruct Hw as [_ Vw]. rewrite Vw by exact Hi.
      destruct (F32.is_nan _); cbn [negb F32.of_bool F32.mul F32.one F32.zero];
        f_equal; ring.
    + rewrite Hw by exact Hi.
      destruct (F32.is_nan _); cbn [negb F32.of_bool F32.mul F32.one F32.zero];
        f_equal; ring.
  - intros d Hd. rewrite (Vk d Hd).
    destruct (F32.is_nan keypoint_coordinates.[[i; col; d]]); reflexivity.
Qed.
End KeypointMaskOnFiniteClasses.

(** C4, as stated, fails: with a soft class membership of 1/2, no weights
    and a present keypoint, the mask cell is 1/2, which is neither 0 nor the
    weight 1. *)
Lemma mask_soft_membership_counterexample :
  exists mask keypoints,
    get_valid_keypoint_mask_for_class Examples.keypoint_plain 0
      Examples.class_half None None = Some (mask, keypoints)
    /\ mask.[[0; 0]] <> Fin 0 /\ mask.[[0; 0]] <> Fin 1.
Proof.
  destruct (@keypoint_mask_real 1 1 1 Examples.keypoint_plain
              Examples.class_half 0 None None Examples.half2 Examples.ones)
    as (mask & kps & E & _ & _ & V).
  - reflexivity.
  - real_tensor.
  - lia.
  - intros i _. reflexivity.
  - discriminate.
  - exists mask, kps. split; [exact E|].
    destruct (V 0 0 ltac:(lia) ltac:(cbn; lia)) as [Vm _].
    cbn [Spec.column Examples.keypoint_plain TF.of_blocks at_ nth F32.is_nan]
      in Vm.
    rewrite Vm. unfold Examples.half2, Examples.ones.
    split; intros Heq; injection Heq as Heq; lra.
Defined.

(** C4, amended: with finite class memberships and weights (1 when omitted),
    every cell of the mask is 0 or the class membership
    [class_onehot[i, class_id]] times the weight of the instance; it is 0 or
    the weight itself when the membership is 0 or 1. *)
Theorem mask_is_zero_or_membership_times_weight N K NC
    (keypoint_coordinates class_onehot : tensor float32) (class_id : nat)
    (class_weights : option (tensor float32))
    (keypoint_indices : option (list nat))
    (m : nat -> nat -> R) (w : nat -> R) :
  shape keypoint_coordinates = [N; K; 2] ->
  Spec.real_matrix class_onehot N NC m -> class_id < NC ->
  Spec.real_weights class_weights N w ->
  (forall l, keypoint_indices = Some l -> Forall (fun j => j < K) l) ->
  exists mask keypoints,
    get_valid_keypoint_mask_for_class keypoint_coordinates class_id
      class_onehot class_weights keypoint_indices = Some (mask, keypoints)
    /\ forall i k, i < N -> k < Spec.columns K keypoint_indices ->
       (mask.[[i; k]] = Fin 0
        \/ mask.[[i; k]] = Fin (m i class_id * w i))
       /\ (m i class_id = 0%R \/ m i class_id = 1%R ->
           mask.[[i; k]] = Fin 0 \/ mask.[[i; k]] = Fin (w i)).
Proof.
  intros Hkp Hm Hid Hw Hki.
  destruct (@keypoint_mask_real N K NC _ _ class_id class_weights
              keypoint_indices m w Hkp Hm Hid Hw Hki)
    as (mask & kps & E & _ & _ & V).
  exists mask, kps. split; [exact E|].
  intros i k Hi Hk. destruct (V i k Hi Hk) as [Vm _]. rewrite Vm.
  destruct (F32.is_nan _).
  - split; [now left|]. intros _. now left.
  - split; [now right|]. intros [E0|E1].
    + left. f_equal. rewrite E0. ring.
    + right. f_equal. rewrite E1. ring.
Qed.

Lemma mask_is_zero_or_membership_times_weight_witness :
  exists mask keypoints,
    get_valid_keypoint_mask_for_class Examples.keypoint_plain 0
      Examples.class_half None None = Some (mask, keypoints)
    /\ (mask.[[0; 0]] = Fin 0 \/ mask.[[0; 0]] = Fin (1 / 2 * 1)).
Proof.
  destruct (@mask_is_zero_or_membership_times_weight 1 1 1
              Examples.keypoint_plain Examples.class_half 0 None None
              Examples.half2 Examples.ones)
    as (mask & kps & E & V).
  - reflexivity.
  - real_tensor.
  - lia.
  - intros i _. reflexivity.
  - discriminate.
  - exists mask, kps. split; [exact E|].
    apply (V 0 0); cbn; lia.
Defined.

(** C7: a keypoint whose y-coordinate is NaN gets mask 0 whatever the
    (finite) class membership and weight are, and every NaN coordinate is
    replaced by 0 whatever the mask is, while the other coordinates are
    kept; so a keypoint with both coordinates NaN has mask 0 and sanitized
    coordinates (0, 0).  Only the y-coordinate decides the mask. *)
Theorem nan_keypoint_is_masked_and_zeroed N K NC
    (keypoint_coordinates class_onehot : tensor float32) (class_id : nat)
    (class_weights : option (tensor float32))
    (keypoint_indices : option (list nat))
    (m : nat -> nat -> R) (w : nat -> R) :
  shape keypoint_coordinates = [N; K; 2] ->
  Spec.real_matrix class_onehot N NC m -> class_id < NC ->
  Spec.real_weights class_weights N w ->
  (forall l, keypoint_indices = Some l -> Forall (fun j => j < K) l) ->
  exists mask keypoints,
    get_valid_keypoint_mask_for_class keypoint_coordinates class_id
      class_onehot class_weights keypoint_indices = Some (mask, keypoints)
    /\ forall i k, i < N -> k < Spec.columns K keypoint_indices ->
       let col := Spec.column keypoint_indices k in
       (keypoint_coordinates.[[i; col; 0]] = NaN ->
        keypoint_coordinates.[[i; col; 1]] = NaN ->
        mask.[[i; k]] = Fin 0
        /\ keypoints.[[i; k; 0]] = Fin 0 /\ keypoints.[[i; k; 1]] = Fin 0)
       /\ (keypoint_coordinates.[[i; col; 0]] = NaN -> mask.[[i; k]] = Fin 0)
       /\ (forall d, d < 2 ->
           keypoint_coordinates.[[i; col; d]] = NaN ->
           keypoints.[[i; k; d]] = Fin 0)
       /\ (forall d, d < 2 ->
           keypoint_coordinates.[[i; col; d]] <> NaN ->
           keypoints.[[i; k; d]] = keypoint_coordinates.[[i; col; d]]).
Proof.
  intros Hkp Hm Hid Hw Hki.
  destruct (@keypoint_mask_real N K NC _ _ class_id class_weights
              keypoint_indices m w Hkp Hm Hid Hw Hki)
    as (mask & kps & E & _ & _ & V).
  exists mask, kps. split; [exact E|].
  intros i k Hi Hk col. destruct (V i k Hi Hk) as [Vm Vk]. fold col in Vm, Vk.
  assert (Hmask : keypoint_coordinates.[[i; col; 0]] = NaN ->
                  mask.[[i; k]] = Fin 0).
  { intros Ey. rewrite Vm, Ey. reflexivity. }
  assert (Hzero : forall d, d < 2 ->
                  keypoint_coordinates.[[i; col; d]] = NaN ->
                  kps.[[i; k; d]] = Fin 0).
  { intros d Hd Ed. rewrite (Vk d Hd), Ed. reflexivity. }
  split; [|split; [exact Hmask|split; [exact Hzero|]]].
  - intros Ey Ex. split; [now apply Hmask|].
    split; apply Hzero; (lia || assumption).
  - intros d Hd Ed. rewrite (Vk d Hd).
    destruct (keypoint_coordinates.[[i; col; d]]); try reflexivity.
    now contradiction Ed.
Qed.

Lemma nan_keypoint_is_masked_and_zeroed_witness :
  exists mask keypoints,
    get_valid_keypoint_mask_for_class Examples.keypoint_nan 0
      Examples.class_one None None = Some (mask, keypoints)
    /\ mask.[[0; 0]] = Fin 0
    /\ keypoints.[[0; 0; 0]] = Fin 0 /\ keypoints.[[0; 0; 1]] = Fin 0.
Proof.
  destruct (@nan_keypoint_is_masked_and_zeroed 1 1 1
              Examples.keypoint_nan Examples.class_one 0 None None
              Examples.ones2 Examples.ones)
    as (mask & kps & E & V).
  - reflexivity.
  - real_tensor.
  - lia.
  - intros i _. reflexivity.
  - discriminate.
  - exists mask, kps. split; [exact E|].
    destruct (V 0 0 ltac:(lia) ltac:(cbn; lia)) as (Both & _).
    apply Both; reflexivity.
Defined.

(** C9: a keypoint with a finite y-coordinate and a NaN x-coordinate is not
    masked out: its mask cell is the class membership times the weight
    (non-zero when both are), its y-coordinate is kept, and its x-coordinate
    is nevertheless replaced by 0. *)
Theorem nan_x_alone_keeps_the_mask N K NC
    (keypoint_coordinates class_onehot : tensor float32) (class_id : nat)
    (class_weights : option (tensor float32))
    (keypoint_indices : option (list nat))
    (m : nat -> nat -> R) (w : nat -> R) :
  shape keypoint_coordinates = [N; K; 2] ->
  Spec.real_matrix class_onehot N NC m -> class_id < NC ->
  Spec.real_weights class_weights N w ->
  (forall l, keypoint_indices = Some l -> Forall (fun j => j < K) l) ->
  exists mask keypoints,
    get_valid_keypoint_mask_for_class keypoint_coordinates class_id
      class_onehot class_weights keypoint_indices = Some (mask, keypoints)
    /\ forall i k yv, i < N -> k < Spec.columns K keypoint_indices ->
       let col := Spec.column keypoint_indices k in
       keypoint_coordinates.[[i; col; 0]] = Fin yv ->
       keypoint_coordinates.[[i; col; 1]] = NaN ->
       mask.[[i; k]] = Fin (m i class_id * w i)
       /\ ((m i class_id * w i)%R <> 0%R -> mask.[[i; k]] <> Fin 0)
       /\ keypoints.[[i; k; 0]] = Fin yv
       /\ keypoints.[[i; k; 1]] = Fin 0.
Proof.
  intros Hkp Hm Hid Hw Hki.
  destruct (@keypoint_mask_real N K NC _ _ class_id class_weights
              keypoint_indices m w Hkp Hm Hid Hw Hki)
    as (mask & kps & E & _ & _ & V).
  exists mask, kps. split; [exact E|].
  intros i k yv Hi Hk col Ey Ex.
  destruct (V i k Hi Hk) as [Vm Vk]. fold col in Vm, Vk.
  rewrite Vm, (Vk 0), (Vk 1), Ey, Ex by lia. cbn [F32.is_nan].
  repeat split. intros Hne Heq. injection Heq as Heq. contradiction.
Qed.

Lemma nan_x_alone_keeps_the_mask_witness :
  exists mask keypoints,
    get_valid_keypoint_mask_for_class Examples.keypoint_nan_x 0
      Examples.class_one None None = Some (mask, keypoints)
    /\ mask.[[0; 0]] = Fin (1 * 1)
    /\ keypoints.[[0; 0; 0]] = Fin 5 /\ keypoints.[[0; 0; 1]] = Fin 0.
Proof.
  destruct (@nan_x_alone_keeps_the_mask 1 1 1
              Examples.keypoint_nan_x Examples.class_one 0 None None
              Examples.ones2 Examples.ones)
    as (mask & kps & E & V).
  - reflexivity.
  - real_tensor.
  - lia.
  - intros i _. reflexivity.
  - discriminate.
  - exists mask, kps. split; [exact E|].
    destruct (V 0 0 5%R ltac:(lia) ltac:(cbn; lia) eq_refl eq_refl)
      as (Vm & _ & Vy & Vx).
    repeat split; assumption.
Defined.

(** ** The region blackout mask *)

Lemma max_list_fin_nonempty (f : nat -> float32) (v : nat -> R) l :
  l <> [] ->
  (forall i, In i l -> f i = Fin (v i)) ->
  (forall i, In i l -> (0 <= v i)%R) ->
  F32.max_list (map f l) = Fin (fold_right Rmax 0%R (map v l)).
Proof.
  intros Hl Hf Hv.
  destruct (max_list_fin f v l Hf) as [[-> _]|[_ (m & E & Hm)]];
    [contradiction|].
  rewrite E. f_equal. rewrite <- Hm. symmetry. apply Rmax_left.
  destruct l as [|a l]; [contradiction|].
  pose proof (Hv a (or_introl eq_refl)) as Ha.
  pose proof (@fold_Rmax_upper (-1)%R v (a :: l) a (or_introl eq_refl)) as Hu.
  rewrite <- Hm in Hu. unfold Rmax in Hu.
  destruct (Rle_dec m (-1)); lra.
Qed.

Lemma in_box_inside (boxes : tensor float32) i r c y_min x_min y_max x_max :
  boxes.[[i; 0]] = Fin y_min -> boxes.[[i; 1]] = Fin x_min ->
  boxes.[[i; 2]] = Fin y_max -> boxes.[[i; 3]] = Fin x_max ->
  Spec.in_box boxes i r c = true <-> Spec.inside y_min x_min y_max x_max r c.
Proof.
  intros E0 E1 E2 E3. unfold Spec.in_box, Spec.inside, F32.of_nat.
  rewrite E0, E1, E2, E3, !andb_true_iff, !geb_fin, !leb_fin. tauto.
Qed.

Section BlackoutOnFiniteBoxes.
Variables (H W N : nat).
Variable boxes : tensor float32.
Variable blackout : tensor bool.
Variable b : nat -> nat -> R.

Hypothesis Hb : Spec.real_matrix boxes N 4 b.
Hypothesis Hbl : shape blackout = [N].
Hypothesis HN : 0 < N.

(** With at least one box, a pixel gets 0 when a selected box contains it
    and 1 otherwise. *)
Lemma blackout_real :
  exists out,
    blackout_pixel_weights_by_box_regions H W boxes blackout = Some out
    /\ shape out = [H; W]
    /\ forall r c, r < H -> c < W ->
       (out.[[r; c]] = Fin 0
        /\ exists i, i < N /\ Spec.blacks_out blackout b i r c)
       \/ (out.[[r; c]] = Fin 1
           /\ forall i, i < N -> ~ Spec.blacks_out blackout b i r c).
Proof.
  destruct Hb as [Sb Vb].
  destruct (@blackout_pixel_weights_by_box_regions_pointwise H W N _ _ Sb Hbl)
    as (out & E & So & V).
  exists out. split; [exact E|]. split; [exact So|].
  intros r c Hr Hc. rewrite V by assumption.
  assert (Hin : forall i, i < N ->
            Spec.in_box boxes i r c = true <->
            Spec.inside (b i 0) (b i 1) (b i 2) (b i 3) r c).
  { intros i Hi. apply in_box_inside; apply Vb; lia. }
  set (v := fun i => if blackout.[[i]] && Spec.in_box boxes i r c
                     then 1%R else 0%R).
  rewrite (@max_list_fin_nonempty _ v).
  - cbn [F32.sub F32.one F32.neg F32.add].
    destruct (fold_Rmax_attained 0%R v (seq 0 N)) as [E0|(i & Hi & Ei)].
    + right. rewrite E0. split; [f_equal; lra|].
      intros i Hi [Hsel Hins].
      assert (Hle : (v i <= 0)%R).
      { rewrite <- E0. apply fold_Rmax_upper, in_seq. lia. }
      apply Hin in Hins; [|exact Hi].
      unfold v in Hle. rewrite Hsel, Hins in Hle. cbn in Hle. lra.
    + rewrite Ei. apply in_seq in Hi.
      assert (Hvi : v i = if blackout.[[i]] && Spec.in_box boxes i r c
                          then 1%R else 0%R) by reflexivity.
      destruct (blackout.[[i]] && Spec.in_box boxes i r c) eqn:Hv;
        rewrite Hvi.
      * left. split; [f_equal; lra|].
        apply andb_true_iff in Hv. destruct Hv as [Hsel Hins].
        exists i. split; [lia|]. split; [exact Hsel|].
        apply Hin; [lia|exact Hins].
      * right. split; [f_equal; lra|].
        intros j Hj [Hsel Hins].
        assert (Hle : (v j <= v i)%R).
        { rewrite <- Ei. apply fold_Rmax_upper, in_seq. lia. }
        apply Hin in Hins; [|exact Hj].
        rewrite Hvi in Hle. unfold v in Hle.
        rewrite Hsel, Hins in Hle. cbn in Hle. lra.
  - destruct N; [lia|discriminate].
  - intros i _. unfold v.
    destruct (blackout.[[i]]); [|reflexivity].
    destruct (Spec.in_box boxes i r c); reflexivity.
  - intros i _. unfold v.
    destruct (blackout.[[i]] && Spec.in_box boxes i r c); lra.
Qed.
End BlackoutOnFiniteBoxes.

(** C6: the claim promises an all-1.0 mask when there is no box.  The code
    returns [1 - max] without clamping the maximum over the empty set of
    boxes, which is -inf: every pixel of the result is +inf. *)
Theorem blackout_without_boxes_is_infinite H W
    (boxes : tensor float32) (blackout : tensor bool) :
  shape boxes = [0; 4] -> shape blackout = [0] ->
  exists out,
    blackout_pixel_weights_by_box_regions H W boxes blackout = Some out
    /\ shape out = [H; W]
    /\ forall r c, r < H -> c < W ->
       out.[[r; c]] = PosInf /\ out.[[r; c]] <> Fin 1.
Proof.
  intros Sb Sbl.
  destruct (@blackout_pixel_weights_by_box_regions_pointwise H W 0 _ _ Sb Sbl)
    as (out & E & So & V).
  exists out. split; [exact E|]. split; [exact So|].
  intros r c Hr Hc. rewrite V by assumption. split; [reflexivity|].
  discriminate.
Qed.

Lemma blackout_without_boxes_is_infinite_witness :
  exists out,
    blackout_pixel_weights_by_box_regions 3 3 Examples.no_boxes
      Examples.no_blackout = Some out
    /\ out.[[0; 0]] = PosInf.
Proof.
  destruct (@blackout_without_boxes_is_infinite 3 3 Examples.no_boxes
              Examples.no_blackout eq_refl eq_refl) as (out & E & _ & V).
  exists out. split; [exact E|]. apply (V 0 0); lia.
Defined.

(** C10: among finitely-valued boxes, a selected box with inverted bounds
    contains no pixel, so a pixel is 1 unless another selected box contains
    it; a selected degenerate box whose four bounds are the integer
    coordinates of a pixel of the grid blacks out that pixel, and any other
    pixel is 1 unless another selected box contains it. *)
Theorem blackout_inverted_and_degenerate_boxes H W N
    (boxes : tensor float32) (blackout : tensor bool)
    (b : nat -> nat -> R) (i : nat) :
  Spec.real_matrix boxes N 4 b -> shape blackout = [N] ->
  i < N -> blackout.[[i]] = true ->
  let y_min := b i 0 in
  let x_min := b i 1 in
  let y_max := b i 2 in
  let x_max := b i 3 in
  exists out,
    blackout_pixel_weights_by_box_regions H W boxes blackout = Some out
    /\ ((y_min > y_max \/ x_min > x_max)%R ->
        forall r c, r < H -> c < W ->
        ~ Spec.inside y_min x_min y_max x_max r c
        /\ (out.[[r; c]] = Fin 1
            \/ (out.[[r; c]] = Fin 0
                /\ exists j, j < N /\ j <> i
                   /\ Spec.blacks_out blackout b j r c)))
    /\ (forall y0 x0, y0 < H -> x0 < W ->
        y_min = INR y0 -> y_max = INR y0 ->
        x_min = INR x0 -> x_max = INR x0 ->
        out.[[y0; x0]] = Fin 0
        /\ forall r c, r < H -> c < W -> (r, c) <> (y0, x0) ->
           ~ Spec.inside y_min x_min y_max x_max r c
           /\ (out.[[r; c]] = Fin 1
               \/ (out.[[r; c]] = Fin 0
                   /\ exists j, j < N /\ j <> i
                      /\ Spec.blacks_out blackout b j r c))).
Proof.
  intros Hb Hbl Hi Hsel y_min x_min y_max x_max.
  destruct (@blackout_real H W N boxes blackout b Hb Hbl ltac:(lia))
    as (out & E & _ & V).
  exists out. split; [exact E|].
  assert (Hother : forall r c, r < H -> c < W ->
            ~ Spec.inside y_min x_min y_max x_max r c ->
            out.[[r; c]] = Fin 1
            \/ (out.[[r; c]] = Fin 0
                /\ exists j, j < N /\ j <> i
                   /\ Spec.blacks_out blackout b j r c)).
  { intros r c Hr Hc Hout.
    destruct (V r c Hr Hc) as [[E0 (j & Hj & Hbo)]|[E1 _]]; [|now left].
    right. split; [exact E0|]. exists j. split; [exact Hj|].
    split; [|exact Hbo]. intros ->. apply Hout, Hbo. }
  split.
  - intros Hinv r c Hr Hc.
    assert (Hout : ~ Spec.inside y_min x_min y_max x_max r c).
    { unfold Spec.inside. intros [[? ?] [? ?]]. destruct Hinv; lra. }
    split; [exact Hout|]. now apply Hother.
  - intros y0 x0 Hy0 Hx0 E0 E2 E1 E3. split.
    + destruct (V y0 x0 Hy0 Hx0) as [[Ez _]|[_ Hnone]]; [exact Ez|].
      exfalso. apply (Hnone i Hi). split; [exact Hsel|].
      fold y_min x_min y_max x_max. unfold Spec.inside.
      rewrite E0, E1, E2, E3. lra.
    + intros r c Hr Hc Hne.
      assert (Hout : ~ Spec.inside y_min x_min y_max x_max r c).
      { unfold Spec.inside. rewrite E0, E1, E2, E3.
        intros [[? ?] [? ?]]. apply Hne.
        f_equal; apply INR_eq; lra. }
      split; [exact Hout|]. now apply Hother.
Qed.

Lemma blackout_inverted_and_degenerate_boxes_witness :
  exists out,
    blackout_pixel_weights_by_box_regions 3 4 Examples.point_box
      Examples.selected_one = Some out
    /\ out.[[1; 2]] = Fin 0
    /\ out.[[1; 1]] = Fin 1.
Proof.
  destruct (@blackout_inverted_and_degenerate_boxes 3 4 1
              Examples.point_box Examples.selected_one
              Examples.point_box_val 0)
    as (out & E & _ & Vdeg).
  - real_tensor.
  - reflexivity.
  - lia.
  - reflexivity.
  - exists out. split; [exact E|].
    destruct (Vdeg 1 2 ltac:(lia) ltac:(lia)) as [Ez Vrest];
      try (cbn; lra).
    split; [exact Ez|].
    destruct (Vrest 1 1 ltac:(lia) ltac:(lia) ltac:(discriminate))
      as [_ [E1|[_ (j & Hj & Hne & _)]]]; [exact E1|lia].
Defined.

(** The box (0, 0, 1, 1) on a 3 x 3 grid: the four pixels of the corner are
    0 and the others 1 when the box is selected, and all are 1 when not. *)
Example blackout_corner_box :
  exists out,
    blackout_pixel_weights_by_box_regions 3 3 Examples.corner_box
      Examples.selected_one = Some out
    /\ forall r c, r < 3 -> c < 3 ->
       out.[[r; c]] = if (r <=? 1) && (c <=? 1) then Fin 0 else Fin 1.
Proof.
  destruct (@blackout_real 3 3 1 Examples.corner_box Examples.selected_one
              Examples.corner_box_val)
    as (out & E & _ & V); [real_tensor|reflexivity|lia|].
  exists out. split; [exact E|]. intros r c Hr Hc.
  assert (Hins : Spec.inside 0 0 1 1 r c <-> r <= 1 /\ c <= 1).
  { unfold Spec.inside. split.
    - intros [[_ H1] [_ H2]]. split; apply INR_le; exact H1 || exact H2.
    - intros [H1 H2]. apply le_INR in H1, H2.
      pose proof (pos_INR r). pose proof (pos_INR c).
      cbn [INR] in H1, H2. lra. }
  destruct (V r c Hr Hc) as [[-> (i & Hi & _ & Hin)]|[-> Hnone]].
  - assert (i = 0) by lia. subst i. apply Hins in Hin.
    destruct Hin as [H1 H2]. apply Nat.leb_le in H1, H2.
    now rewrite H1, H2.
  - destruct (r <=? 1) eqn:H1; [|reflexivity].
    destruct (c <=? 1) eqn:H2; [|reflexivity].
    exfalso. apply (Hnone 0); [lia|]. split; [reflexivity|].
    apply Hins. split; now apply Nat.leb_le.
Qed.

Example blackout_unselected_box :
  exists out,
    blackout_pixel_weights_by_box_regions 3 3 Examples.corner_box
      Examples.selected_none = Some out
    /\ forall r c, r < 3 -> c < 3 -> out.[[r; c]] = Fin 1.
Proof.
  destruct (@blackout_real 3 3 1 Examples.corner_box Examples.selected_none
              Examples.corner_box_val)
    as (out & E & _ & V); [real_tensor|reflexivity|lia|].
  exists out. split; [exact E|]. intros r c Hr Hc.
  destruct (V r c Hr Hc) as [[_ (i & Hi & Hsel & _)]|[-> _]]; [|reflexivity].
  assert (i = 0) by lia. subst i. discriminate Hsel.
Qed.

(** * Further properties *)

(** ** The offset and index computer *)

Lemma Zfloor_in_grid (y : R) (H : nat) :
  (0 <= y < INR H)%R -> (0 <= Zfloor y < Z.of_nat H)%Z.
Proof.
  intros [Hlo Hhi]. pose proof (Zfloor_bound y) as [Hf _]. split.
  - apply Zfloor_lub. exact Hlo.
  - apply lt_IZR. rewrite <- INR_IZR_INZ. lra.
Qed.

(** The outputs on finite sources and targets, before any range condition. *)
Lemma offsets_real M
    (y_source x_source : tensor float32)
    (y_target x_target : option (tensor float32))
    (ys xs yt xt : nat -> R) :
  Spec.real_vector y_source M ys -> Spec.real_vector x_source M xs ->
  Spec.real_target y_target M ys yt -> Spec.real_target x_target M xs xt ->
  exists offsets indices,
    compute_floor_offsets_with_indices y_source x_source y_target x_target =
    Some (offsets, indices)
    /\ forall j, j < M ->
       offsets.[[j; 0]] = Fin (yt j - IZR (Zfloor (ys j)))
       /\ offsets.[[j; 1]] = Fin (xt j - IZR (Zfloor (xs j)))
       /\ indices.[[j; 0]] = F32.to_int32 (Fin (IZR (Zfloor (ys j))))
       /\ indices.[[j; 1]] = F32.to_int32 (Fin (IZR (Zfloor (xs j)))).
Proof.
  intros [S1 V1] [S2 V2] Hyt Hxt.
  assert (S3 : forall t, y_target = Some t -> shape t = [M]).
  { intros t ->. apply Hyt. }
  assert (S4 : forall t, x_target = Some t -> shape t = [M]).
  { intros t ->. apply Hxt. }
  destruct (@compute_floor_offsets_with_indices_pointwise M _ _ _ _
              S1 S2 S3 S4) as (offsets & indices & E & _ & _ & V).
  exists offsets, indices. split; [exact E|].
  intros j Hj. destruct (V j Hj) as (O0 & O1 & I0 & I1).
  rewrite V1 in O0, I0 by exact Hj. rewrite V2 in O1, I1 by exact Hj.
  assert (Ty : match y_target with None => y_source | Some t => t end.[[j]]
               = Fin (yt j)).
  { destruct y_target as [t|]; cbn [Spec.real_target] in Hyt.
    - now apply Hyt.
    - rewrite V1, Hyt by exact Hj. reflexivity. }
  assert (Tx : match x_target with None => x_source | Some t => t end.[[j]]
               = Fin (xt j)).
  { destruct x_target as [t|]; cbn [Spec.real_target] in Hxt.
    - now apply Hxt.
    - rewrite V2, Hxt by exact Hj. reflexivity. }
  rewrite Ty in O0. rewrite Tx in O1.
  cbn [F32.floor F32.sub F32.neg F32.add] in O0, O1, I0, I1.
  repeat split; assumption.
Qed.

(** X1: when the targets are omitted, both components of every offset lie
    in [0, 1], and below 1 when the source coordinate is not negative: the
    offset is the position of the point inside its cell.  (For a negative
    source just below an integer, float32 rounds the difference up to 1.) *)
Theorem self_offsets_lie_in_unit_cell M
    (y_source x_source : tensor float32) (ys xs : nat -> R) :
  Spec.real_vector y_source M ys -> Spec.real_vector x_source M xs ->
  exists offsets indices,
    compute_floor_offsets_with_indices y_source x_source None None =
    Some (offsets, indices)
    /\ forall j, j < M ->
       exists oy ox,
         offsets.[[j; 0]] = Fin oy /\ offsets.[[j; 1]] = Fin ox
         /\ (0 <= oy <= 1)%R /\ (0 <= ox <= 1)%R
         /\ ((0 <= ys j)%R -> (oy < 1)%R)
         /\ ((0 <= xs j)%R -> (ox < 1)%R).
Proof.
  intros Hy Hx.
  destruct (@offsets_real M y_source x_source None None ys xs ys xs Hy Hx)
    as (offsets & indices & E & V); try (intros j _; reflexivity).
  exists offsets, indices. split; [exact E|].
  intros j Hj. destruct (V j Hj) as (O0 & O1 & _).
  do 2 eexists. split; [exact O0|]. split; [exact O1|].
  pose proof (Zfloor_bound (ys j)). pose proof (Zfloor_bound (xs j)).
  repeat split; try intros _; lra.
Qed.

Lemma self_offsets_lie_in_unit_cell_witness :
  exists offsets indices oy ox,
    compute_floor_offsets_with_indices Examples.y_three Examples.x_three
      None None = Some (offsets, indices)
    /\ offsets.[[2; 0]] = Fin oy /\ offsets.[[2; 1]] = Fin ox
    /\ (0 <= oy < 1)%R /\ (0 <= ox < 1)%R.
Proof.
  destruct (@self_offsets_lie_in_unit_cell 3 Examples.y_three
              Examples.x_three Examples.y_three_val Examples.x_three_val)
    as (offsets & indices & E & V); [real_tensor|real_tensor|].
  destruct (V 2 ltac:(lia)) as (oy & ox & O0 & O1 & By & Bx & Sy & Sx).
  exists offsets, indices, oy, ox. split; [exact E|].
  split; [exact O0|]. split; [exact O1|].
  assert (oy < 1)%R by (apply Sy; cbn [Examples.y_three_val nth]; lra).
  assert (ox < 1)%R by (apply Sx; cbn [Examples.x_three_val nth]; lra).
  split; lra.
Defined.

(** X2: when the targets are omitted, the index and the offset of a point
    with non-negative coordinates add up to its coordinates, as real
    numbers: nothing is lost by splitting a coordinate into its cell and its
    position in the cell (as long as the cell index fits in 32 bits). *)
Theorem index_plus_self_offset_is_source M
    (y_source x_source : tensor float32) (ys xs : nat -> R) :
  Spec.real_vector y_source M ys -> Spec.real_vector x_source M xs ->
  exists offsets indices,
    compute_floor_offsets_with_indices y_source x_source None None =
    Some (offsets, indices)
    /\ forall j, j < M ->
       (0 <= ys j)%R -> (Zfloor (ys j) <= F32.int32_max)%Z ->
       (0 <= xs j)%R -> (Zfloor (xs j) <= F32.int32_max)%Z ->
       exists oy ox,
         offsets.[[j; 0]] = Fin oy /\ offsets.[[j; 1]] = Fin ox
         /\ (IZR indices.[[j; 0%nat]] + oy = ys j)%R
         /\ (IZR indices.[[j; 1%nat]] + ox = xs j)%R.
Proof.
  intros Hy Hx.
  destruct (@offsets_real M y_source x_source None None ys xs ys xs Hy Hx)
    as (offsets & indices & E & V); try (intros j _; reflexivity).
  exists offsets, indices. split; [exact E|].
  intros j Hj Py Ry Px Rx. destruct (V j Hj) as (O0 & O1 & I0 & I1).
  do 2 eexists. split; [exact O0|]. split; [exact O1|].
  assert (0 <= Zfloor (ys j))%Z by (apply Zfloor_lub; exact Py).
  assert (0 <= Zfloor (xs j))%Z by (apply Zfloor_lub; exact Px).
  rewrite I0, I1, !to_int32_of_Z by (unfold F32.int32_min; lia).
  split; lra.
Qed.

Lemma index_plus_self_offset_is_source_witness :
  exists offsets indices oy,
    compute_floor_offsets_with_indices Examples.y_three Examples.x_three
      None None = Some (offsets, indices)
    /\ offsets.[[0; 0]] = Fin oy
    /\ (IZR indices.[[0%nat; 0%nat]] + oy = 37 / 10)%R.
Proof.
  destruct (@index_plus_self_offset_is_source 3 Examples.y_three
              Examples.x_three Examples.y_three_val Examples.x_three_val)
    as (offsets & indices & E & V); [real_tensor|real_tensor|].
  assert (Fy : Zfloor (37 / 10) = 3%Z) by (apply Zfloor_eq; lra).
  assert (Fx : Zfloor (22 / 10) = 2%Z) by (apply Zfloor_eq; lra).
  destruct (V 0 ltac:(lia)) as (oy & ox & O0 & _ & Sy & _);
    cbn [Examples.y_three_val Examples.x_three_val nth];
    rewrite ?Fy, ?Fx; try lra; try (unfold F32.int32_max; lia).
  exists offsets, indices, oy. split; [exact E|]. split; [exact O0|].
  exact Sy.
Defined.

(** X3: a source point inside an H x W grid (H and W at most 2^31) gets
    the indices of a pixel of the grid, whatever the targets are. *)
Theorem indices_address_the_grid H W M
    (y_source x_source : tensor float32)
    (y_target x_target : option (tensor float32))
    (ys xs yt xt : nat -> R) :
  Spec.real_vector y_source M ys -> Spec.real_vector x_source M xs ->
  Spec.real_target y_target M ys yt -> Spec.real_target x_target M xs xt ->
  (Z.of_nat H <= 2 ^ 31)%Z -> (Z.of_nat W <= 2 ^ 31)%Z ->
  exists offsets indices,
    compute_floor_offsets_with_indices y_source x_source y_target x_target =
    Some (offsets, indices)
    /\ forall j, j < M ->
       (0 <= ys j < INR H)%R -> (0 <= xs j < INR W)%R ->
       (0 <= indices.[[j; 0%nat]] < Z.of_nat H)%Z
       /\ (0 <= indices.[[j; 1%nat]] < Z.of_nat W)%Z.
Proof.
  intros Hy Hx Hyt Hxt HH HW.
  destruct (@offsets_real M y_source x_source y_target x_target
              ys xs yt xt Hy Hx Hyt Hxt) as (offsets & indices & E & V).
  exists offsets, indices. split; [exact E|].
  intros j Hj By Bx. destruct (V j Hj) as (_ & _ & I0 & I1).
  apply Zfloor_in_grid in By, Bx.
  rewrite I0, I1, !to_int32_of_Z
    by (unfold F32.int32_min, F32.int32_max; lia).
  split; assumption.
Qed.

Lemma indices_address_the_grid_witness :
  exists offsets indices,
    compute_floor_offsets_with_indices Examples.y_three Examples.x_three
      None None = Some (offsets, indices)
    /\ (0 <= indices.[[2%nat; 0%nat]] < 4)%Z
    /\ (0 <= indices.[[2%nat; 1%nat]] < 4)%Z.
Proof.
  destruct (@indices_address_the_grid 4 4 3 Examples.y_three
              Examples.x_three None None
              Examples.y_three_val Examples.x_three_val
              Examples.y_three_val Examples.x_three_val)
    as (offsets & indices & E & V);
    [real_tensor|real_tensor|intros j _; reflexivity|intros j _; reflexivity
     |lia|lia|].
  exists offsets, indices. split; [exact E|].
  apply (V 2); [lia| |];
    cbn [Examples.y_three_val Examples.x_three_val nth INR]; lra.
Defined.

(** X4: a NaN source coordinate makes the offset of that coordinate NaN,
    whatever the target is: the floor of NaN is NaN and so is any
    difference with it. *)
Theorem nan_source_gives_nan_offset M
    (y_source x_source : tensor float32)
    (y_target x_target : option (tensor float32)) :
  shape y_source = [M] -> shape x_source = [M] ->
  (forall t, y_target = Some t -> shape t = [M]) ->
  (forall t, x_target = Some t -> shape t = [M]) ->
  exists offsets indices,
    compute_floor_offsets_with_indices y_source x_source y_target x_target =
    Some (offsets, indices)
    /\ forall j, j < M ->
       (y_source.[[j]] = NaN -> offsets.[[j; 0]] = NaN)
       /\ (x_source.[[j]] = NaN -> offsets.[[j; 1]] = NaN).
Proof.
  intros S1 S2 S3 S4.
  destruct (@compute_floor_offsets_with_indices_pointwise M _ _ _ _
              S1 S2 S3 S4) as (offsets & indices & E & _ & _ & V).
  exists offsets, indices. split; [exact E|].
  intros j Hj. destruct (V j Hj) as (O0 & O1 & _).
  split; intros En; [rewrite O0|rewrite O1]; rewrite En;
    cbn [F32.floor]; unfold F32.sub; cbn [F32.neg];
    match goal with |- F32.add ?t NaN = NaN => now destruct t end.
Qed.

Lemma nan_source_gives_nan_offset_witness :
  exists offsets indices,
    compute_floor_offsets_with_indices Examples.nan_one Examples.x_source
      (Some Examples.y_source) None = Some (offsets, indices)
    /\ offsets.[[0; 0]] = NaN.
Proof.
  destruct (@nan_source_gives_nan_offset 1 Examples.nan_one
              Examples.x_source (Some Examples.y_source) None)
    as (offsets & indices & E & V);
    [reflexivity|reflexivity|now intros t [= <-]|discriminate|].
  exists offsets, indices. split; [exact E|].
  now apply (V 0 ltac:(lia)).
Defined.

(** X5: source vectors of different lengths are rejected when the targets
    are omitted: the two offset columns cannot be stacked. *)
Theorem sources_of_different_lengths_are_rejected M1 M2
    (y_source x_source : tensor float32) :
  shape y_source = [M1] -> shape x_source = [M2] -> M1 <> M2 ->
  compute_floor_offsets_with_indices y_source x_source None None = None.
Proof.
  destruct y_source as [s1 ys], x_source as [s2 xs]. cbn [shape].
  intros -> -> Hne. unfold compute_floor_offsets_with_indices.
  tf_run. unfold TF.stack2.
  cbn [shape TF.cast_float_to_int32 TF.floor TF.tmap length].
  change (TF.norm_axis 2 1) with (Some 1). cbn [bind].
  destruct (list_eq_dec Nat.eq_dec [M1] [M2]) as [Heq|_]; [|reflexivity].
  injection Heq as Heq. contradiction.
Qed.

Lemma sources_of_different_lengths_are_rejected_witness :
  compute_floor_offsets_with_indices Examples.y_source Examples.x_three
    None None = None.
Proof.
  apply (@sources_of_different_lengths_are_rejected 1 3);
    [reflexivity|reflexivity|lia].
Defined.

(** ** The heatmap renderer *)

Section MoreScalarFacts.
Local Open Scope R_scope.

Lemma Rltb_false a b : b <= a -> F32.Rltb a b = false.
Proof. intros Hab. unfold F32.Rltb. destruct (Rlt_dec a b); [lra|easy]. Qed.

Lemma exp_monotone a b : a <= b -> Rtrigo_def.exp a <= Rtrigo_def.exp b.
Proof.
  intros [Hlt | ->]; [left; now apply exp_increasing|right; reflexivity].
Qed.

Lemma fold_Rmax_scale k (v : nat -> R) l :
  0 <= k ->
  fold_right Rmax 0 (map (fun i => k * v i) l) =
  k * fold_right Rmax 0 (map v l).
Proof.
  intros Hk. induction l as [|a l IH]; cbn [map fold_right]; [ring|].
  rewrite IH. now apply RmaxRmult.
Qed.

(** The squared distance the kernel is applied to. *)
Lemma gaussian_antitone gy gx gy' gx' y x s :
  s <> 0 ->
  (gx - IZR (Zfloor x)) * (gx - IZR (Zfloor x)) +
  (gy - IZR (Zfloor y)) * (gy - IZR (Zfloor y)) <=
  (gx' - IZR (Zfloor x)) * (gx' - IZR (Zfloor x)) +
  (gy' - IZR (Zfloor y)) * (gy' - IZR (Zfloor y)) ->
  Spec.gaussian gy' gx' y x s <= Spec.gaussian gy gx y x s.
Proof.
  intros Hs Hd. unfold Spec.gaussian. apply exp_monotone.
  pose proof (two_sq_pos Hs) as Hq. apply Rinv_0_lt_compat in Hq.
  unfold Rdiv. apply Rmult_le_compat_r; lra.
Qed.

End MoreScalarFacts.

Lemma bdim_none a b : a <> b -> a <> 1 -> b <> 1 -> TF.bdim a b = None.
Proof.
  intros Hab Ha Hb. unfold TF.bdim.
  apply Nat.eqb_neq in Hab, Ha, Hb. now rewrite Hab, Ha, Hb.
Qed.

(** The grids of [image_shape_to_grids] hold the row and the column of each
    pixel. *)
Lemma image_grids_real H W (y_grid x_grid : tensor float32) :
  image_shape_to_grids H W = Some (y_grid, x_grid) ->
  Spec.real_matrix y_grid H W (fun r _ => INR r)
  /\ Spec.real_matrix x_grid H W (fun _ c => INR c).
Proof.
  rewrite image_shape_to_grids_eval. intros [= <- <-].
  split; (split; [reflexivity|intros; reflexivity]).
Qed.

(** X6: on the grids of [image_shape_to_grids], the response of an instance
    never increases with the squared distance of the pixel to its floored
    centre: a pixel at least as far as another gets at most its value. *)
Theorem response_decreases_with_distance H W N
    (y_grid x_grid y_coordinates x_coordinates sigma : tensor float32)
    (y x s : nat -> R) :
  image_shape_to_grids H W = Some (y_grid, x_grid) ->
  Spec.real_vector y_coordinates N y -> Spec.real_vector x_coordinates N x ->
  Spec.real_vector sigma N s -> (forall i, i < N -> s i <> 0%R) ->
  exists g,
    gaussian_map y_grid x_grid y_coordinates x_coordinates sigma = Some g
    /\ forall r c r' c' i, r < H -> c < W -> r' < H -> c' < W -> i < N ->
       let d := fun p q =>
         ((INR p - IZR (Zfloor (y i))) ^ 2
          + (INR q - IZR (Zfloor (x i))) ^ 2)%R in
       exists v v',
         g.[[r; c; i]] = Fin v /\ g.[[r'; c'; i]] = Fin v'
         /\ ((d r c <= d r' c')%R -> (v' <= v)%R).
Proof.
  intros Eg Hy Hx Hs Hs0.
  destruct (image_grids_real Eg) as [Hyg Hxg].
  destruct (gaussian_map_real Hyg Hxg Hy Hx Hs Hs0) as (g & E & _ & V).
  exists g. split; [exact E|].
  intros r c r' c' i Hr Hc Hr' Hc' Hi d.
  do 2 eexists. split; [now apply V|]. split; [now apply V|].
  unfold d. intros Hd.
  apply gaussian_antitone; [now apply Hs0|]. lra.
Qed.

Lemma response_decreases_with_distance_witness :
  exists y_grid x_grid g v v',
    image_shape_to_grids 3 4 = Some (y_grid, x_grid)
    /\ gaussian_map y_grid x_grid Examples.y_one Examples.x_one
         Examples.sigma_one = Some g
    /\ g.[[1; 2; 0]] = Fin v /\ g.[[0; 0; 0]] = Fin v' /\ (v' <= v)%R.
Proof.
  pose proof (image_shape_to_grids_eval 3 4) as Egrid.
  destruct (@response_decreases_with_distance 3 4 1 _ _
              Examples.y_one Examples.x_one Examples.sigma_one
              (fun _ => (3 / 2)%R) (fun _ => (9 / 4)%R) (fun _ => 2%R)
              Egrid)
    as (g & Eg & V); [real_tensor|real_tensor|real_tensor|intros i _; lra|].
  destruct (V 1 2 0 0 0 ltac:(lia) ltac:(lia) ltac:(lia) ltac:(lia)
              ltac:(lia)) as (v & v' & E1 & E2 & Hlt).
  do 2 eexists. exists g, v, v'. split; [exact Egrid|]. split; [exact Eg|].
  split; [exact E1|]. split; [exact E2|]. apply Hlt.
  assert (Fy : Zfloor (3 / 2) = 1%Z) by (apply Zfloor_eq; lra).
  assert (Fx : Zfloor (9 / 4) = 2%Z) by (apply Zfloor_eq; lra).
  rewrite Fy, Fx. cbn [INR]. lra.
Defined.



(** X8: a channel to which no instance belongs (all its one-hot entries are
    0) is 0 at every pixel, with or without weights. *)
Theorem channel_without_instances_is_zero H W N C
    (y_grid x_grid y_coordinates x_coordinates sigma channel_onehot
     : tensor float32) (channel_weights : option (tensor float32))
    (gy gx : nat -> nat -> R) (y x s : nat -> R)
    (oh : nat -> nat -> R) (w : nat -> R) :
  Spec.real_matrix y_grid H W gy -> Spec.real_matrix x_grid H W gx ->
  Spec.real_vector y_coordinates N y -> Spec.real_vector x_coordinates N x ->
  Spec.real_vector sigma N s -> (forall i, i < N -> s i <> 0%R) ->
  Spec.real_matrix channel_onehot N C oh ->
  Spec.real_weights channel_weights N w ->
  exists heatmap,
    coordinates_to_heatmap y_grid x_grid y_coordinates x_coordinates sigma
      channel_onehot channel_weights = Some heatmap
    /\ forall ch, ch < C -> (forall i, i < N -> oh i ch = 0%R) ->
       forall r c, r < H -> c < W -> heatmap.[[r; c; ch]] = Fin 0.
Proof.
  intros Hyg Hxg Hy Hx Hs Hs0 Hoh Hw.
  destruct (heatmap_real channel_weights w Hyg Hxg Hy Hx Hs Hs0 Hoh Hw)
    as (hm & E & _ & V).
  exists hm. split; [exact E|].
  intros ch Hch Hz r c Hr Hc. rewrite V by assumption. f_equal.
  unfold Spec.Rmax_upto. apply Rle_antisym; [|apply fold_Rmax_lower].
  apply fold_Rmax_le; [lra|]. intros i Hi. apply in_seq in Hi.
  rewrite Hz by lia. lra.
Qed.

Lemma channel_without_instances_is_zero_witness :
  exists heatmap,
    coordinates_to_heatmap Examples.y_grid_1x2 Examples.x_grid_1x2
      Examples.y_one Examples.x_one Examples.sigma_one Examples.onehot_first
      (Some Examples.weight_three) = Some heatmap
    /\ heatmap.[[0; 1; 1]] = Fin 0.
Proof.
  destruct (@channel_without_instances_is_zero 1 2 1 2
              Examples.y_grid_1x2 Examples.x_grid_1x2
              Examples.y_one Examples.x_one Examples.sigma_one
              Examples.onehot_first (Some Examples.weight_three)
              Examples.gy_1x2 Examples.gx_1x2
              (fun _ => (3 / 2)%R) (fun _ => (9 / 4)%R) (fun _ => 2%R)
              Examples.onehot_first_val (fun _ => 3%R))
    as (hm & E & V); [real_tensor|real_tensor|real_tensor|real_tensor
                      |real_tensor|intros i _; lra|real_tensor|real_tensor|].
  exists hm. split; [exact E|].
  apply (V 1); try lia. intros i _. reflexivity.
Defined.

(** X9: giving every instance the same weight [k >= 0] multiplies the
    unweighted heatmap by [k]; in particular unit weights change nothing. *)
Theorem uniform_weight_scales_the_heatmap H W N C
    (y_grid x_grid y_coordinates x_coordinates sigma channel_onehot weights
     : tensor float32)
    (gy gx : nat -> nat -> R) (y x s : nat -> R)
    (oh : nat -> nat -> R) (k : R) :
  Spec.real_matrix y_grid H W gy -> Spec.real_matrix x_grid H W gx ->
  Spec.real_vector y_coordinates N y -> Spec.real_vector x_coordinates N x ->
  Spec.real_vector sigma N s -> (forall i, i < N -> s i <> 0%R) ->
  Spec.real_matrix channel_onehot N C oh ->
  Spec.real_vector weights N (fun _ => k) -> (0 <= k)%R ->
  exists plain weighted,
    coordinates_to_heatmap y_grid x_grid y_coordinates x_coordinates sigma
      channel_onehot None = Some plain
    /\ coordinates_to_heatmap y_grid x_grid y_coordinates x_coordinates sigma
         channel_onehot (Some weights) = Some weighted
    /\ forall r c ch, r < H -> c < W -> ch < C ->
       exists u,
         plain.[[r; c; ch]] = Fin u
         /\ weighted.[[r; c; ch]] = Fin (k * u).
Proof.
  intros Hyg Hxg Hy Hx Hs Hs0 Hoh Hw Hk.
  destruct (@heatmap_real H W N C _ _ _ _ _ _ None _ _ _ _ _ _
              (fun _ => 1%R) Hyg Hxg Hy Hx Hs Hs0 Hoh (fun _ _ => eq_refl))
    as (plain & Ep & _ & Vp).
  destruct (@heatmap_real H W N C _ _ _ _ _ _ (Some weights) _ _ _ _ _ _
              (fun _ => k) Hyg Hxg Hy Hx Hs Hs0 Hoh Hw)
    as (weighted & Ew & _ & Vw).
  exists plain, weighted. split; [exact Ep|]. split; [exact Ew|].
  intros r c ch Hr Hc Hch. eexists. split; [now apply Vp|].
  rewrite Vw by assumption. f_equal. unfold Spec.Rmax_upto.
  rewrite <- fold_Rmax_scale by exact Hk. f_equal.
  apply map_ext. intros i. ring.
Qed.

Lemma uniform_weight_scales_the_heatmap_witness :
  exists plain weighted u,
    coordinates_to_heatmap Examples.y_grid_1x2 Examples.x_grid_1x2
      Examples.y_one Examples.x_one Examples.sigma_one Examples.onehot_first
      None = Some plain
    /\ coordinates_to_heatmap Examples.y_grid_1x2 Examples.x_grid_1x2
         Examples.y_one Examples.x_one Examples.sigma_one
         Examples.onehot_first (Some Examples.weight_three) = Some weighted
    /\ plain.[[0; 1; 0]] = Fin u /\ weighted.[[0; 1; 0]] = Fin (3 * u).
Proof.
  destruct (@uniform_weight_scales_the_heatmap 1 2 1 2
              Examples.y_grid_1x2 Examples.x_grid_1x2
              Examples.y_one Examples.x_one Examples.sigma_one
              Examples.onehot_first Examples.weight_three
              Examples.gy_1x2 Examples.gx_1x2
              (fun _ => (3 / 2)%R) (fun _ => (9 / 4)%R) (fun _ => 2%R)
              Examples.onehot_first_val 3%R)
    as (plain & weighted & Ep & Ew & V);
    [real_tensor|real_tensor|real_tensor|real_tensor|real_tensor
     |intros i _; lra|real_tensor|real_tensor|lra|].
  destruct (V 0 1 0 ltac:(lia) ltac:(lia) ltac:(lia)) as (u & Eu & Eku).
  exists plain, weighted, u. repeat split; assumption.
Defined.

(** X10: a sigma equal to 0 is not guarded.  For that instance the division
    by [2 * sigma * sigma] gives NaN at the pixel that is the floored centre
    (0 / 0) and the response 0 at every other pixel (exp of -inf). *)
Theorem zero_sigma_response H W N
    (y_grid x_grid y_coordinates x_coordinates sigma : tensor float32)
    (y x : nat -> R) :
  image_shape_to_grids H W = Some (y_grid, x_grid) ->
  Spec.real_vector y_coordinates N y -> Spec.real_vector x_coordinates N x ->
  shape sigma = [N] ->
  exists g,
    gaussian_map y_grid x_grid y_coordinates x_coordinates sigma = Some g
    /\ forall r c i, r < H -> c < W -> i < N ->
       sigma.[[i]] = Fin 0 ->
       (Zfloor (y i) = Z.of_nat r /\ Zfloor (x i) = Z.of_nat c ->
        g.[[r; c; i]] = NaN)
       /\ (~ (Zfloor (y i) = Z.of_nat r /\ Zfloor (x i) = Z.of_nat c) ->
           g.[[r; c; i]] = Fin 0).
Proof.
  intros Eg [Sy Vy] [Sx Vx] Ss.
  destruct (image_grids_real Eg) as [[Syg Vyg] [Sxg Vxg]].
  destruct (@gaussian_map_pointwise H W N _ _ _ _ _ Syg Sxg Sy Sx Ss)
    as (g & E & _ & V).
  exists g. split; [exact E|].
  intros r c i Hr Hc Hi Hz.
  rewrite V, Vyg, Vxg, Vy, Vx, Hz by assumption.
  cbn [F32.floor F32.sub F32.neg F32.add]. rewrite !pow2_fin.
  cbn [F32.add F32.neg F32.mul F32.div].
  replace (2 * 0 * 0)%R with 0%R by ring. rewrite Reqb_true.
  set (dx := (INR c + - IZR (Zfloor (x i)))%R).
  set (dy := (INR r + - IZR (Zfloor (y i)))%R).
  unfold F32.signed_inf. split.
  - intros [Fy Fx].
    assert (Hdx : dx = 0%R) by (unfold dx; rewrite Fx, <- INR_IZR_INZ; ring).
    assert (Hdy : dy = 0%R) by (unfold dy; rewrite Fy, <- INR_IZR_INZ; ring).
    rewrite Hdx, Hdy.
    replace (- (0 * 0 + 0 * 0))%R with 0%R by ring.
    now rewrite Reqb_true.
  - intros Hoff.
    assert (Hpos : (0 < dx * dx + dy * dy)%R).
    { destruct (Req_dec_T dx 0) as [Hdx|Hdx].
      - destruct (Req_dec_T dy 0) as [Hdy|Hdy].
        + exfalso. apply Hoff. unfold dx, dy in *. split; apply eq_IZR;
            rewrite <- INR_IZR_INZ; lra.
        + pose proof (Rsqr_pos_lt dy Hdy) as Hq. unfold Rsqr in Hq.
          pose proof (Rle_0_sqr dx) as Hp. unfold Rsqr in Hp. lra.
      - pose proof (Rsqr_pos_lt dx Hdx) as Hq. unfold Rsqr in Hq.
        pose proof (Rle_0_sqr dy) as Hp. unfold Rsqr in Hp. lra. }
    rewrite Reqb_false by lra. rewrite Rltb_false by lra. reflexivity.
Qed.

Lemma zero_sigma_response_witness :
  exists y_grid x_grid g,
    image_shape_to_grids 3 4 = Some (y_grid, x_grid)
    /\ gaussian_map y_grid x_grid Examples.y_one Examples.x_one
         Examples.sigma_zero = Some g
    /\ g.[[1; 2; 0]] = NaN /\ g.[[1; 3; 0]] = Fin 0.
Proof.
  pose proof (image_shape_to_grids_eval 3 4) as Egrid.
  destruct (@zero_sigma_response 3 4 1 _ _
              Examples.y_one Examples.x_one Examples.sigma_zero
              (fun _ => (3 / 2)%R) (fun _ => (9 / 4)%R) Egrid)
    as (g & Eg & V); [real_tensor|real_tensor|reflexivity|].
  assert (Fy : Zfloor (3 / 2) = 1%Z) by (apply Zfloor_eq; lra).
  assert (Fx : Zfloor (9 / 4) = 2%Z) by (apply Zfloor_eq; lra).
  do 2 eexists. exists g. split; [exact Egrid|]. split; [exact Eg|]. split.
  - destruct (V 1 2 0 ltac:(lia) ltac:(lia) ltac:(lia) eq_refl) as [Hc _].
    apply Hc. now rewrite Fy, Fx.
  - destruct (V 1 3 0 ltac:(lia) ltac:(lia) ltac:(lia) eq_refl) as [_ Ho].
    apply Ho. rewrite Fy, Fx. intros [_ Habs]. discriminate Habs.
Defined.

(** X11: a sigma tensor holding a single value is broadcast: every instance
    gets the kernel of that one sigma. *)
Theorem single_sigma_is_shared H W N
    (y_grid x_grid y_coordinates x_coordinates sigma : tensor float32)
    (gy gx : nat -> nat -> R) (y x : nat -> R) (s : R) :
  Spec.real_matrix y_grid H W gy -> Spec.real_matrix x_grid H W gx ->
  Spec.real_vector y_coordinates N y -> Spec.real_vector x_coordinates N x ->
  Spec.real_vector sigma 1 (fun _ => s) -> s <> 0%R ->
  exists g,
    gaussian_map y_grid x_grid y_coordinates x_coordinates sigma = Some g
    /\ shape g = [H; W; N]
    /\ forall r c i, r < H -> c < W -> i < N ->
       g.[[r; c; i]] = Fin (Spec.gaussian (gy r c) (gx r c) (y i) (x i) s).
Proof.
  intros [Syg Vyg] [Sxg Vxg] [Sy Vy] [Sx Vx] [Ss Vs] Hs.
  assert (E : exists g,
    gaussian_map y_grid x_grid y_coordinates x_coordinates sigma = Some g
    /\ shape g = [H; W; N]
    /\ forall r c i, r < H -> c < W -> i < N ->
       g.[[r; c; i]] =
       F32.exp
         (F32.div
            (F32.neg
               (F32.add
                  (F32.pow (F32.sub x_grid.[[r; c]]
                                    (F32.floor x_coordinates.[[i]])) 2)
                  (F32.pow (F32.sub y_grid.[[r; c]]
                                    (F32.floor y_coordinates.[[i]])) 2)))
            (F32.mul (F32.mul (Fin 2) sigma.[[0]]) sigma.[[0]]))).
  { clear Vyg Vxg Vy Vx Vs.
    destruct y_grid as [s1 yg], x_grid as [s2 xg], y_coordinates as [s3 yc],
      x_coordinates as [s4 xc], sigma as [s5 sg].
    cbn [shape] in *. subst. unfold gaussian_map. tf_run.
    eexists; split; [reflexivity|]. split; [reflexivity|].
    intros r c i Hr Hc Hi. tf_at. tf_idx. reflexivity. }
  destruct E as (g & E & Sg & V).
  exists g. split; [exact E|]. split; [exact Sg|].
  intros r c i Hr Hc Hi.
  rewrite V, Vyg, Vxg, Vy, Vx, Vs by (assumption || lia).
  now apply response_fin.
Qed.

Lemma single_sigma_is_shared_witness :
  exists g,
    gaussian_map Examples.y_grid_1x2 Examples.x_grid_1x2
      Examples.y_two Examples.x_two Examples.sigma_one = Some g
    /\ g.[[0; 0; 1]] = Fin (Spec.gaussian 0 0 0 1 2).
Proof.
  destruct (@single_sigma_is_shared 1 2 2
              Examples.y_grid_1x2 Examples.x_grid_1x2
              Examples.y_two Examples.x_two Examples.sigma_one
              Examples.gy_1x2 Examples.gx_1x2
              Examples.y_two_val Examples.x_two_val 2%R)
    as (g & E & _ & V);
    [real_tensor|real_tensor|real_tensor|real_tensor|real_tensor|lra|].
  exists g. split; [exact E|]. apply (V 0 0 1); lia.
Defined.

(** X12: the one-hot matrix must have one row per instance: when its number
    of rows differs from the number of coordinates (and neither is 1, which
    would broadcast), the call fails, with or without weights. *)
Theorem onehot_rows_must_match_instances H W N N' C
    (y_grid x_grid y_coordinates x_coordinates sigma channel_onehot
     : tensor float32) (channel_weights : option (tensor float32)) :
  shape y_grid = [H; W] -> shape x_grid = [H; W] ->
  shape y_coordinates = [N] -> shape x_coordinates = [N] ->
  shape sigma = [N] -> shape channel_onehot = [N'; C] ->
  N <> N' -> N <> 1 -> N' <> 1 ->
  coordinates_to_heatmap y_grid x_grid y_coordinates x_coordinates sigma
    channel_onehot channel_weights = None.
Proof.
  intros S1 S2 S3 S4 S5 S6 Hne HN HN'.
  destruct (@gaussian_map_pointwise H W N _ _ _ _ _ S1 S2 S3 S4 S5)
    as (g & Eg & Sg & _).
  unfold coordinates_to_heatmap. rewrite Eg.
  unfold combined_static_and_dynamic_shape. rewrite S6. cbn [unpack2 bind].
  destruct g as [sg g], channel_onehot as [so oh]. cbn [shape] in *.
  subst sg so. tf_run.
  unfold TF.broadcast2. tf_shape_cbv.
  rewrite !bdim_1_r, (bdim_none Hne HN HN'). reflexivity.
Qed.

Lemma onehot_rows_must_match_instances_witness :
  coordinates_to_heatmap Examples.y_grid_1x2 Examples.x_grid_1x2
    Examples.y_two Examples.x_two Examples.sigma_two Examples.onehot_three
    None = None.
Proof.
  apply (@onehot_rows_must_match_instances 1 2 2 3 1);
    solve [reflexivity | lia].
Defined.

(** ** The keypoint mask builder *)

(** X13: the sanitized keypoints never hold a NaN, whatever the input
    coordinates, class memberships and weights are. *)
Theorem sanitized_keypoints_have_no_nan N K NC
    (keypoint_coordinates class_onehot : tensor float32) (class_id : nat)
    (class_weights : option (tensor float32))
    (keypoint_indices : option (list nat)) :
  shape keypoint_coordinates = [N; K; 2] ->
  shape class_onehot = [N; NC] -> class_id < NC ->
  (forall w, class_weights = Some w -> shape w = [N]) ->
  (forall l, keypoint_indices = Some l -> Forall (fun j => j < K) l) ->
  exists mask keypoints,
    get_valid_keypoint_mask_for_class keypoint_coordinates class_id
      class_onehot class_weights keypoint_indices = Some (mask, keypoints)
    /\ forall i k d, i < N -> k < Spec.columns K keypoint_indices -> d < 2 ->
       F32.is_nan keypoints.[[i; k; d]] = false.
Proof.
  intros S1 S2 Hid S3 S4.
  destruct (@get_valid_keypoint_mask_for_class_pointwise N K NC _ class_id _
              class_weights keypoint_indices S1 S2 Hid S3 S4)
    as (mask & kps & E & V).
  destruct (V _ eq_refl) as (_ & _ & Vc).
  exists mask, kps. split; [exact E|].
  intros i k d Hi Hk Hd. destruct (Vc i k Hi Hk) as [_ Vk].
  rewrite (Vk d Hd).
  destruct (keypoint_coordinates.[[i; Spec.column keypoint_indices k; d]]);
    reflexivity.
Qed.

Lemma sanitized_keypoints_have_no_nan_witness :
  exists mask keypoints,
    get_valid_keypoint_mask_for_class Examples.keypoints_three 0
      Examples.class_one None None = Some (mask, keypoints)
    /\ F32.is_nan keypoints.[[0; 1; 0]] = false.
Proof.
  destruct (@sanitized_keypoints_have_no_nan 1 3 1 Examples.keypoints_three
              Examples.class_one 0 None None)
    as (mask & kps & E & V);
    [reflexivity|reflexivity|lia|discriminate|discriminate|].
  exists mask, kps. split; [exact E|]. apply V; cbn; lia.
Defined.

(** X14: sanitizing is idempotent: feeding the sanitized keypoints back to
    the function (without a column selection) returns them unchanged. *)
Theorem sanitizing_twice_changes_nothing N K NC
    (keypoint_coordinates class_onehot : tensor float32) (class_id : nat)
    (class_weights : option (tensor float32))
    (keypoint_indices : option (list nat)) :
  shape keypoint_coordinates = [N; K; 2] ->
  shape class_onehot = [N; NC] -> class_id < NC ->
  (forall w, class_weights = Some w -> shape w = [N]) ->
  (forall l, keypoint_indices = Some l -> Forall (fun j => j < K) l) ->
  exists mask keypoints mask' keypoints',
    get_valid_keypoint_mask_for_class keypoint_coordinates class_id
      class_onehot class_weights keypoint_indices = Some (mask, keypoints)
    /\ get_valid_keypoint_mask_for_class keypoints class_id
         class_onehot class_weights None = Some (mask', keypoints')
    /\ shape keypoints' = shape keypoints
    /\ forall i k d, i < N -> k < Spec.columns K keypoint_indices -> d < 2 ->
       keypoints'.[[i; k; d]] = keypoints.[[i; k; d]].
Proof.
  intros S1 S2 Hid S3 S4.
  destruct (@get_valid_keypoint_mask_for_class_pointwise N K NC _ class_id _
              class_weights keypoint_indices S1 S2 Hid S3 S4)
    as (mask & kps & E & V).
  destruct (V _ eq_refl) as (_ & Sk & Vc).
  destruct (@get_valid_keypoint_mask_for_class_pointwise N
              (Spec.columns K keypoint_indices) NC kps class_id _
              class_weights None Sk S2 Hid S3 ltac:(discriminate))
    as (mask' & kps' & E' & V').
  destruct (V' _ eq_refl) as (_ & Sk' & Vc').
  exists mask, kps, mask', kps'. split; [exact E|]. split; [exact E'|].
  split; [now rewrite Sk, Sk'|].
  intros i k d Hi Hk Hd.
  destruct (Vc i k Hi Hk) as [_ Vk]. destruct (Vc' i k Hi Hk) as [_ Vk'].
  rewrite (Vk' d Hd). cbn [Spec.column]. rewrite (Vk d Hd).
  destruct (keypoint_coordinates.[[i; Spec.column keypoint_indices k; d]]);
    reflexivity.
Qed.

Lemma sanitizing_twice_changes_nothing_witness :
  exists mask keypoints mask' keypoints',
    get_valid_keypoint_mask_for_class Examples.keypoints_three 0
      Examples.class_one None (Some [2; 0]) = Some (mask, keypoints)
    /\ get_valid_keypoint_mask_for_class keypoints 0
         Examples.class_one None None = Some (mask', keypoints')
    /\ keypoints'.[[0; 1; 1]] = keypoints.[[0; 1; 1]].
Proof.
  destruct (@sanitizing_twice_changes_nothing 1 3 1 Examples.keypoints_three
              Examples.class_one 0 None (Some [2; 0]))
    as (mask & kps & mask' & kps' & E & E' & _ & V);
    [reflexivity|reflexivity|lia|discriminate| |].
  - intros l [= <-]. repeat constructor.
  - exists mask, kps, mask', kps'. split; [exact E|]. split; [exact E'|].
    apply V; cbn; lia.
Defined.

(** X15: with finite class memberships and weights, a mask cell is
    non-zero exactly when the y-coordinate of the keypoint is not NaN and
    the class membership times the weight of the instance is non-zero. *)
Theorem mask_is_nonzero_exactly_when N K NC
    (keypoint_coordinates class_onehot : tensor float32) (class_id : nat)
    (class_weights : option (tensor float32))
    (keypoint_indices : option (list nat))
    (m : nat -> nat -> R) (w : nat -> R) :
  shape keypoint_coordinates = [N; K; 2] ->
  Spec.real_matrix class_onehot N NC m -> class_id < NC ->
  Spec.real_weights class_weights N w ->
  (forall l, keypoint_indices = Some l -> Forall (fun j => j < K) l) ->
  exists mask keypoints,
    get_valid_keypoint_mask_for_class keypoint_coordinates class_id
      class_onehot class_weights keypoint_indices = Some (mask, keypoints)
    /\ forall i k, i < N -> k < Spec.columns K keypoint_indices ->
       let col := Spec.column keypoint_indices k in
       mask.[[i; k]] <> Fin 0 <->
       keypoint_coordinates.[[i; col; 0]] <> NaN
       /\ (m i class_id * w i)%R <> 0%R.
Proof.
  intros Hkp Hm Hid Hw Hki.
  destruct (@keypoint_mask_real N K NC _ _ class_id class_weights
              keypoint_indices m w Hkp Hm Hid Hw Hki)
    as (mask & kps & E & _ & _ & V).
  exists mask, kps. split; [exact E|].
  intros i k Hi Hk col. destruct (V i k Hi Hk) as [Vm _]. fold col in Vm.
  rewrite Vm.
  destruct (keypoint_coordinates.[[i; col; 0]]) eqn:Ey; cbn [F32.is_nan].
  - split; [intros Hne; now contradiction Hne|intros [Hne _]; easy].
  - split; [intros Hne|intros [_ Hne] [= Heq]; contradiction].
    split; [discriminate|]. intros Heq. apply Hne. now rewrite Heq.
  - split; [intros Hne|intros [_ Hne] [= Heq]; contradiction].
    split; [discriminate|]. intros Heq. apply Hne. now rewrite Heq.
  - split; [intros Hne|intros [_ Hne] [= Heq]; contradiction].
    split; [discriminate|]. intros Heq. apply Hne. now rewrite Heq.
Qed.

Lemma mask_is_nonzero_exactly_when_witness :
  exists mask keypoints,
    get_valid_keypoint_mask_for_class Examples.keypoints_three 0
      Examples.class_one None None = Some (mask, keypoints)
    /\ mask.[[0; 2]] <> Fin 0.
Proof.
  destruct (@mask_is_nonzero_exactly_when 1 3 1 Examples.keypoints_three
              Examples.class_one 0 None None Examples.ones2 Examples.ones)
    as (mask & kps & E & V);
    [reflexivity|real_tensor|lia|intros i _; reflexivity|discriminate|].
  exists mask, kps. split; [exact E|].
  apply (V 0 2); [lia|cbn; lia|]. split; [discriminate|].
  unfold Examples.ones2, Examples.ones. lra.
Defined.

(** X16: a class id that is not a column of [class_onehot] is an error:
    the call fails instead of returning a mask. *)
Theorem class_id_out_of_range_is_rejected N K NC
    (keypoint_coordinates class_onehot : tensor float32) (class_id : nat)
    (class_weights : option (tensor float32))
    (keypoint_indices : option (list nat)) :
  shape keypoint_coordinates = [N; K; 2] ->
  shape class_onehot = [N; NC] -> NC <= class_id ->
  get_valid_keypoint_mask_for_class keypoint_coordinates class_id
    class_onehot class_weights keypoint_indices = None.
Proof.
  intros S1 S2 Hid. unfold get_valid_keypoint_mask_for_class.
  unfold TF.shape_at. rewrite S1. cbn [nth_error bind].
  unfold TF.index_axis. rewrite S2. cbn [length nth].
  apply Nat.ltb_ge in Hid. rewrite Hid. reflexivity.
Qed.

Lemma class_id_out_of_range_is_rejected_witness :
  get_valid_keypoint_mask_for_class Examples.keypoints_three 1
    Examples.class_one None None = None.
Proof.
  apply (@class_id_out_of_range_is_rejected 1 3 1);
    solve [reflexivity | lia].
Defined.

(** X17: selecting columns commutes with the computation: the outputs of a
    call with a non-empty [keypoint_indices = l] are the columns [l] of the
    outputs of the call without selection, in the order of [l] (which may
    repeat or drop columns). *)
Theorem column_selection_gathers_the_plain_outputs N K NC
    (keypoint_coordinates class_onehot : tensor float32) (class_id : nat)
    (class_weights : option (tensor float32)) (l : list nat) :
  shape keypoint_coordinates = [N; K; 2] ->
  shape class_onehot = [N; NC] -> class_id < NC ->
  (forall w, class_weights = Some w -> shape w = [N]) ->
  l <> [] -> Forall (fun j => j < K) l ->
  exists mask keypoints mask_l keypoints_l,
    get_valid_keypoint_mask_for_class keypoint_coordinates class_id
      class_onehot class_weights None = Some (mask, keypoints)
    /\ get_valid_keypoint_mask_for_class keypoint_coordinates class_id
         class_onehot class_weights (Some l) = Some (mask_l, keypoints_l)
    /\ shape mask_l = [N; length l]
    /\ shape keypoints_l = [N; length l; 2]
    /\ forall i k, i < N -> k < length l ->
       mask_l.[[i; k]] = mask.[[i; nth k l 0]]
       /\ forall d, d < 2 ->
          keypoints_l.[[i; k; d]] = keypoints.[[i; nth k l 0; d]].
Proof.
  intros S1 S2 Hid S3 _ Hl.
  destruct (@get_valid_keypoint_mask_for_class_pointwise N K NC _ class_id _
              class_weights None S1 S2 Hid S3 ltac:(discriminate))
    as (mask & kps & E & V).
  destruct (@get_valid_keypoint_mask_for_class_pointwise N K NC _ class_id _
              class_weights (Some l) S1 S2 Hid S3
              ltac:(now intros l' [= <-]))
    as (mask_l & kps_l & El & Vl).
  destruct (V _ eq_refl) as (_ & _ & Vc).
  destruct (Vl _ eq_refl) as (Sm & Sk & Vcl).
  exists mask, kps, mask_l, kps_l. split; [exact E|]. split; [exact El|].
  split; [exact Sm|]. split; [exact Sk|].
  intros i k Hi Hk.
  assert (Hcol : nth k l 0 < K).
  { rewrite Forall_forall in Hl. apply Hl, nth_In, Hk. }
  destruct (Vcl i k Hi Hk) as [Vm_l Vk_l].
  destruct (Vc i (nth k l 0) Hi Hcol) as [Vm Vk].
  cbn [Spec.column] in *. split.
  - now rewrite Vm_l, Vm.
  - intros d Hd. now rewrite (Vk_l d Hd), (Vk d Hd).
Qed.

Lemma column_selection_gathers_the_plain_outputs_witness :
  exists mask keypoints mask_l keypoints_l,
    get_valid_keypoint_mask_for_class Examples.keypoints_three 0
      Examples.class_one None None = Some (mask, keypoints)
    /\ get_valid_keypoint_mask_for_class Examples.keypoints_three 0
         Examples.class_one None (Some [2; 0]) = Some (mask_l, keypoints_l)
    /\ shape mask_l = [1; 2]
    /\ mask_l.[[0; 0]] = mask.[[0; 2]] /\ mask_l.[[0; 1]] = mask.[[0; 0]].
Proof.
  destruct (@column_selection_gathers_the_plain_outputs 1 3 1
              Examples.keypoints_three Examples.class_one 0 None [2; 0])
    as (mask & kps & mask_l & kps_l & E & El & Sm & _ & V);
    [reflexivity|reflexivity|lia|discriminate|discriminate
     |repeat constructor|].
  exists mask, kps, mask_l, kps_l. split; [exact E|]. split; [exact El|].
  split; [exact Sm|].
  split; [apply (V 0 0)|apply (V 0 1)]; cbn; lia.
Defined.

(** ** The region blackout mask *)

(** With at least one box, whatever the bounds hold (finite, infinite or
    NaN), a pixel is 0 when the test of a selected box passes and 1
    otherwise. *)
Lemma blackout_general H W N (boxes : tensor float32) (blackout : tensor bool) :
  shape boxes = [N; 4] -> shape blackout = [N] -> 0 < N ->
  exists out,
    blackout_pixel_weights_by_box_regions H W boxes blackout = Some out
    /\ shape out = [H; W]
    /\ forall r c, r < H -> c < W ->
       (out.[[r; c]] = Fin 0
        /\ exists i, i < N /\ blackout.[[i]] = true
                     /\ Spec.in_box boxes i r c = true)
       \/ (out.[[r; c]] = Fin 1
           /\ forall i, i < N ->
              ~ (blackout.[[i]] = true /\ Spec.in_box boxes i r c = true)).
Proof.
  intros Sb Sbl HN.
  destruct (@blackout_pixel_weights_by_box_regions_pointwise H W N _ _ Sb Sbl)
    as (out & E & So & V).
  exists out. split; [exact E|]. split; [exact So|].
  intros r c Hr Hc. rewrite V by assumption.
  set (v := fun i => if blackout.[[i]] && Spec.in_box boxes i r c
                     then 1%R else 0%R).
  rewrite (@max_list_fin_nonempty _ v).
  - cbn [F32.sub F32.one F32.neg F32.add].
    destruct (fold_Rmax_attained 0%R v (seq 0 N)) as [E0|(i & Hi & Ei)].
    + right. rewrite E0. split; [f_equal; lra|].
      intros i Hi [Hsel Hins].
      assert (Hle : (v i <= 0)%R).
      { rewrite <- E0. apply fold_Rmax_upper, in_seq. lia. }
      unfold v in Hle. rewrite Hsel, Hins in Hle. cbn in Hle. lra.
    + rewrite Ei. apply in_seq in Hi.
      assert (Hvi : v i = if blackout.[[i]] && Spec.in_box boxes i r c
                          then 1%R else 0%R) by reflexivity.
      destruct (blackout.[[i]] && Spec.in_box boxes i r c) eqn:Hv;
        rewrite Hvi.
      * left. split; [f_equal; lra|].
        apply andb_true_iff in Hv. exists i. split; [lia|exact Hv].
      * right. split; [f_equal; lra|].
        intros j Hj [Hsel Hins].
        assert (Hle : (v j <= v i)%R).
        { rewrite <- Ei. apply fold_Rmax_upper, in_seq. lia. }
        rewrite Hvi in Hle. unfold v in Hle.
        rewrite Hsel, Hins in Hle. cbn in Hle. lra.
  - destruct N; [lia|discriminate].
  - intros i _. unfold v.
    destruct (blackout.[[i]]); [|reflexivity].
    destruct (Spec.in_box boxes i r c); reflexivity.
  - intros i _. unfold v.
    destruct (blackout.[[i]] && Spec.in_box boxes i r c); lra.
Qed.

Lemma inside_integer_bounds y_min x_min y_max x_max r c :
  Spec.inside y_min x_min y_max x_max r c <->
  (Zceil y_min <= Z.of_nat r <= Zfloor y_max)%Z
  /\ (Zceil x_min <= Z.of_nat c <= Zfloor x_max)%Z.
Proof.
  unfold Spec.inside. rewrite !INR_IZR_INZ.
  assert (Hlo : forall a z, (a <= IZR z)%R <-> (Zceil a <= z)%Z).
  { intros a z. pose proof (Zceil_bound a) as [B1 B2]. split; intros Hz.
    - assert (Hlt : (Zceil a - 1 < z)%Z)
        by (apply lt_IZR; rewrite minus_IZR; lra).
      lia.
    - apply IZR_le in Hz. lra. }
  assert (Hhi : forall a z, (IZR z <= a)%R <-> (z <= Zfloor a)%Z).
  { intros a z. split; intros Hz.
    - now apply Zfloor_lub.
    - pose proof (Zfloor_bound a) as [B1 _]. apply IZR_le in Hz. lra. }
  rewrite !Hlo, !Hhi. tauto.
Qed.

(** X18: with at least one box and finite bounds, every pixel of the mask
    is 0 or 1, and it is 0 exactly when a selected box contains it, bounds
    included. *)
Theorem blackout_is_zero_exactly_in_selected_boxes H W N
    (boxes : tensor float32) (blackout : tensor bool)
    (b : nat -> nat -> R) :
  Spec.real_matrix boxes N 4 b -> shape blackout = [N] -> 0 < N ->
  exists out,
    blackout_pixel_weights_by_box_regions H W boxes blackout = Some out
    /\ shape out = [H; W]
    /\ forall r c, r < H -> c < W ->
       (out.[[r; c]] = Fin 0 \/ out.[[r; c]] = Fin 1)
       /\ (out.[[r; c]] = Fin 0 <->
           exists i, i < N /\ Spec.blacks_out blackout b i r c).
Proof.
  intros Hb Hbl HN.
  destruct (@blackout_real H W N boxes blackout b Hb Hbl HN)
    as (out & E & So & V).
  exists out. split; [exact E|]. split; [exact So|].
  intros r c Hr Hc.
  destruct (V r c Hr Hc) as [[E0 Hex]|[E1 Hnone]].
  - split; [now left|]. split; [intros _; exact Hex|intros _; exact E0].
  - split; [now right|]. rewrite E1. split.
    + intros [= Habs]. lra.
    + intros (i & Hi & Hbo). exfalso. now apply (Hnone i Hi).
Qed.

Lemma blackout_is_zero_exactly_in_selected_boxes_witness :
  exists out,
    blackout_pixel_weights_by_box_regions 3 3 Examples.corner_box
      Examples.selected_one = Some out
    /\ (out.[[2; 2]] = Fin 0 \/ out.[[2; 2]] = Fin 1).
Proof.
  destruct (@blackout_is_zero_exactly_in_selected_boxes 3 3 1
              Examples.corner_box Examples.selected_one
              Examples.corner_box_val)
    as (out & E & _ & V); [real_tensor|reflexivity|lia|].
  exists out. split; [exact E|]. apply (V 2 2); lia.
Defined.

(** X19: a box with a NaN bound contains no pixel, selected or not: every
    comparison with NaN is false.  A pixel is then 1 unless the test of
    another selected box passes. *)
Theorem box_with_nan_bound_blacks_out_nothing H W N
    (boxes : tensor float32) (blackout : tensor bool) (i : nat) :
  shape boxes = [N; 4] -> shape blackout = [N] -> i < N ->
  (exists k, k < 4 /\ boxes.[[i; k]] = NaN) ->
  exists out,
    blackout_pixel_weights_by_box_regions H W boxes blackout = Some out
    /\ forall r c, r < H -> c < W ->
       Spec.in_box boxes i r c = false
       /\ (out.[[r; c]] = Fin 1
           \/ (out.[[r; c]] = Fin 0
               /\ exists j, j < N /\ j <> i /\ blackout.[[j]] = true
                            /\ Spec.in_box boxes j r c = true)).
Proof.
  intros Sb Sbl Hi (k & Hk & Hnan).
  destruct (@blackout_general H W N boxes blackout Sb Sbl ltac:(lia))
    as (out & E & _ & V).
  exists out. split; [exact E|].
  intros r c Hr Hc.
  assert (Hout : Spec.in_box boxes i r c = false).
  { unfold Spec.in_box, F32.geb, F32.of_nat.
    do 4 (try destruct k as [|k]); try lia; rewrite Hnan; cbn [F32.leb];
      rewrite ?andb_false_r, ?andb_false_l; reflexivity. }
  split; [exact Hout|].
  destruct (V r c Hr Hc) as [[E0 (j & Hj & Hsel & Hin)]|[E1 _]]; [|now left].
  right. split; [exact E0|]. exists j. split; [exact Hj|].
  split; [|now split]. intros ->. rewrite Hout in Hin. discriminate.
Qed.

Lemma box_with_nan_bound_blacks_out_nothing_witness :
  exists out,
    blackout_pixel_weights_by_box_regions 3 3 Examples.nan_box
      Examples.selected_one = Some out
    /\ out.[[0; 1]] = Fin 1.
Proof.
  destruct (@box_with_nan_bound_blacks_out_nothing 3 3 1 Examples.nan_box
              Examples.selected_one 0)
    as (out & E & V); [reflexivity|reflexivity|lia| |].
  - exists 1. split; [lia|reflexivity].
  - exists out. split; [exact E|].
    destruct (V 0 1 ltac:(lia) ltac:(lia))
      as [_ [E1|[_ (j & Hj & Hne & _)]]]; [exact E1|lia].
Defined.



(** X21: the bounds are compared with the integer coordinates of the
    pixels, so a box blacks out the pixels whose row lies between the
    ceiling of [y_min] and the floor of [y_max] and whose column lies
    between the ceiling of [x_min] and the floor of [x_max]; a box thinner
    than a pixel that holds no integer row or column blacks out nothing. *)
Theorem blackout_rounds_boxes_inwards H W N
    (boxes : tensor float32) (blackout : tensor bool)
    (b : nat -> nat -> R) :
  Spec.real_matrix boxes N 4 b -> shape blackout = [N] -> 0 < N ->
  exists out,
    blackout_pixel_weights_by_box_regions H W boxes blackout = Some out
    /\ forall r c, r < H -> c < W ->
       out.[[r; c]] = Fin 0 <->
       exists i, i < N /\ blackout.[[i]] = true
         /\ (Zceil (b i 0%nat) <= Z.of_nat r <= Zfloor (b i 2%nat))%Z
         /\ (Zceil (b i 1%nat) <= Z.of_nat c <= Zfloor (b i 3%nat))%Z.
Proof.
  intros Hb Hbl HN.
  destruct (@blackout_real H W N boxes blackout b Hb Hbl HN)
    as (out & E & _ & V).
  exists out. split; [exact E|].
  intros r c Hr Hc.
  destruct (V r c Hr Hc) as [[E0 (i & Hi & Hsel & Hin)]|[E1 Hnone]].
  - split; [intros _|intros _; exact E0].
    exists i. split; [exact Hi|]. split; [exact Hsel|].
    now apply inside_integer_bounds.
  - rewrite E1. split.
    + intros [= Habs]. lra.
    + intros (i & Hi & Hsel & Hr' & Hc'). exfalso. apply (Hnone i Hi).
      split; [exact Hsel|]. now apply inside_integer_bounds.
Qed.

Lemma blackout_rounds_boxes_inwards_witness :
  exists out,
    blackout_pixel_weights_by_box_regions 3 3 Examples.thin_box
      Examples.selected_one = Some out
    /\ out.[[0; 0]] <> Fin 0 /\ out.[[1; 1]] <> Fin 0.
Proof.
  destruct (@blackout_rounds_boxes_inwards 3 3 1 Examples.thin_box
              Examples.selected_one Examples.thin_box_val)
    as (out & E & V); [real_tensor|reflexivity|lia|].
  exists out. split; [exact E|].
  assert (Hc : Zceil (2 / 10) = 1%Z) by (apply Zceil_eq; lra).
  assert (Hf : Zfloor (8 / 10) = 0%Z) by (apply Zfloor_eq; lra).
  split; intros E0.
  - apply (V 0 0) in E0; try lia.
    destruct E0 as (i & Hi & _ & Hr & _).
    assert (i = 0) by lia. subst i.
    cbn [Examples.thin_box_val nth] in Hr. rewrite Hc, Hf in Hr. lia.
  - apply (V 1 1) in E0; try lia.
    destruct E0 as (i & Hi & _ & Hr & _).
    assert (i = 0) by lia. subst i.
    cbn [Examples.thin_box_val nth] in Hr. rewrite Hc, Hf in Hr. lia.
Defined.

(** ** The offset computer and the heatmap renderer together *)

(** X22: the two functions floor the coordinates in the same way: for an
    instance inside an H x W grid (H and W at most 2^31), the pixel whose
    row and column are the indices returned by
    [compute_floor_offsets_with_indices] is a pixel of the grid, and the
    response of the instance there is exactly 1. *)
Theorem response_is_one_at_the_offset_indices H W N
    (y_grid x_grid y_coordinates x_coordinates sigma : tensor float32)
    (y x s : nat -> R) :
  image_shape_to_grids H W = Some (y_grid, x_grid) ->
  Spec.real_vector y_coordinates N y -> Spec.real_vector x_coordinates N x ->
  Spec.real_vector sigma N s -> (forall i, i < N -> s i <> 0%R) ->
  (Z.of_nat H <= 2 ^ 31)%Z -> (Z.of_nat W <= 2 ^ 31)%Z ->
  exists offsets indices g,
    compute_floor_offsets_with_indices y_coordinates x_coordinates None None
    = Some (offsets, indices)
    /\ gaussian_map y_grid x_grid y_coordinates x_coordinates sigma = Some g
    /\ forall i, i < N ->
       (0 <= y i < INR H)%R -> (0 <= x i < INR W)%R ->
       let r := Z.to_nat indices.[[i; 0]] in
       let c := Z.to_nat indices.[[i; 1]] in
       r < H /\ c < W /\ g.[[r; c; i]] = Fin 1.
Proof.
  intros Eg Hy Hx Hs Hs0 HH HW.
  destruct (image_grids_real Eg) as [Hyg Hxg].
  destruct (@offsets_real N y_coordinates x_coordinates None None y x y x
              Hy Hx (fun _ _ => eq_refl) (fun _ _ => eq_refl))
    as (offsets & indices & Eo & Vo).
  destruct (gaussian_map_real Hyg Hxg Hy Hx Hs Hs0) as (g & E & _ & V).
  exists offsets, indices, g. split; [exact Eo|]. split; [exact E|].
  intros i Hi By Bx r c.
  destruct (Vo i Hi) as (_ & _ & I0 & I1).
  apply Zfloor_in_grid in By, Bx.
  rewrite to_int32_of_Z in I0, I1
    by (unfold F32.int32_min, F32.int32_max; lia).
  assert (Hr : r < H) by (unfold r; rewrite I0; lia).
  assert (Hc : c < W) by (unfold c; rewrite I1; lia).
  split; [exact Hr|]. split; [exact Hc|].
  rewrite V by assumption. f_equal.
  apply gaussian_centre; rewrite INR_IZR_INZ; f_equal.
  - unfold r. rewrite I0. lia.
  - unfold c. rewrite I1. lia.
Qed.

Lemma response_is_one_at_the_offset_indices_witness :
  exists y_grid x_grid offsets indices g,
    image_shape_to_grids 3 4 = Some (y_grid, x_grid)
    /\ compute_floor_offsets_with_indices Examples.y_one Examples.x_one
         None None = Some (offsets, indices)
    /\ gaussian_map y_grid x_grid Examples.y_one Examples.x_one
         Examples.sigma_one = Some g
    /\ g.[[Z.to_nat indices.[[0; 0]]; Z.to_nat indices.[[0; 1]]; 0]] = Fin 1.
Proof.
  pose proof (image_shape_to_grids_eval 3 4) as Egrid.
  destruct (@response_is_one_at_the_offset_indices 3 4 1 _ _
              Examples.y_one Examples.x_one Examples.sigma_one
              (fun _ => (3 / 2)%R) (fun _ => (9 / 4)%R) (fun _ => 2%R)
              Egrid)
    as (offsets & indices & g & Eo & Eg & V);
    [real_tensor|real_tensor|real_tensor|intros i _; lra|lia|lia|].
  do 2 eexists. exists offsets, indices, g.
  split; [exact Egrid|]. split; [exact Eo|]. split; [exact Eg|].
  apply (V 0); [lia| |]; cbn [INR]; lra.
Defined.
